(** * canvas-eval-2: the submission evaluation engine of [app.ts]

    A shallow embedding of [evaluate] and [upload] and of the pieces they are
    made of: the user filter, the per-criterion child process with its three
    concurrent streams, the comment normalisation, the scoped working
    directory and the dry-run upload.

    Conventions.
    - A JavaScript string is the list of its UTF-16 code units ([list N]).
    - A [Uint8Array] is a [list byte].
    - A JavaScript [number] is kept abstract (class [JSNumber]): the program
      only compares, adds, prints and parses numbers; [SafeInt] is the
      instance used to run the model on concrete inputs.
    - [TextEncoder] and [TextDecoder] are platform functions, taken as
      parameters ([utf8_encode], [utf8_decode]).
    - Everything outside the program (network, file system, child processes)
      answers through a [World]; every answer may be a rejection. *)

From Stdlib Require Import ZArith NArith List Bool Lia String Ascii DecimalString.
From Stdlib.Strings Require Import Byte.
From stdpp Require Import base gmap list.
Import ListNotations.

Unset Default Proof Using.

(** ** JavaScript strings and byte buffers *)

Abbreviation jsstring := (list N).
Abbreviation bytes := (list byte).

(** An ASCII literal as a JavaScript string. *)
Definition js (s : string) : jsstring :=
  map N_of_ascii (list_ascii_of_string s).

Definition jsstring_eqb (a b : jsstring) : bool :=
  bool_decide (a = b).

(** [n.toString()] for an array length or a loop index. *)
Definition nat_toString (n : nat) : jsstring :=
  js (NilZero.string_of_uint (Nat.to_uint n)).

Definition LF : N := 10.
Definition CR : N := 13.
Definition SPACE : N := 32.
(** U+2008, the character that stands in for a leading space. *)
Definition PUNCTUATION_SPACE : N := 8200.

(** ECMAScript LineTerminator: LF, CR, U+2028, U+2029.  A multiline [^]
    matches at the start of the input and right after one of these. *)
Definition isLineTerminator (c : N) : bool :=
  (c =? 10)%N || (c =? 13)%N || (c =? 8232)%N || (c =? 8233)%N.

(** ** [String.prototype.replace] with a global regular expression

    The regular expressions of the program never match the empty string, so
    a matcher returns the length of the match that starts at the current
    position, [0] for no match.  The matcher sees the previous code unit
    (for [^]) and the rest of the input.  After a match the scan resumes
    behind it. *)
Section Replace.
Variable matchAt : option N -> jsstring -> nat.
Variable replacement : jsstring -> jsstring.

Fixpoint replace_from (prev : option N) (skip : nat) (s : jsstring) : jsstring :=
  match s with
  | [] => []
  | c :: rest =>
      match skip with
      | S k => replace_from (Some c) k rest
      | O =>
          match matchAt prev s with
          | S n => replacement (firstn (S n) s) ++ replace_from (Some c) n rest
          | O => c :: replace_from (Some c) 0 rest
          end
      end
  end.

Definition replace_global (s : jsstring) : jsstring := replace_from None 0 s.
End Replace.

Fixpoint prefixb (p s : jsstring) : bool :=
  match p, s with
  | [], _ => true
  | a :: p', b :: s' => if (a =? b)%N then prefixb p' s' else false
  | _ :: _, [] => false
  end.

(** A literal pattern, as in [/<br\/>\r\n/g] and [/\n/g]. *)
Definition match_literal (pat : jsstring) (_ : option N) (s : jsstring) : nat :=
  if prefixb pat s then length pat else 0.

Fixpoint span_length (p : N -> bool) (s : jsstring) : nat :=
  match s with
  | c :: rest => if p c then S (span_length p rest) else 0
  | [] => 0
  end.

Definition at_line_start (prev : option N) : bool :=
  match prev with
  | None => true
  | Some c => isLineTerminator c
  end.

(** [/^ +/mg]: at the start of a line, the longest run of spaces. *)
Definition match_leading_spaces (prev : option N) (s : jsstring) : nat :=
  if at_line_start prev then span_length (N.eqb SPACE) s else 0.

(** [/./g]: any code unit but a line terminator. *)
Definition match_dot (_ : option N) (s : jsstring) : nat :=
  match s with
  | c :: _ => if isLineTerminator c then 0 else 1
  | [] => 0
  end.

Definition BR_CRLF : jsstring := js "<br/>" ++ [CR; LF].

(** [criteriaData.longDescription.replace(/<br\/>\r\n/g, "\n")] *)
Definition stdin_text (longDescription : jsstring) : jsstring :=
  replace_global (match_literal BR_CRLF) (fun _ => [LF]) longDescription.

(** [output.replace(/^ +/mg, s => '\u2008'.repeat(s.length))] *)
Definition normalize_comments (output : jsstring) : jsstring :=
  replace_global match_leading_spaces
    (fun m => repeat PUNCTUATION_SPACE (length m)) output.

(** ["[00/00 #0] ".replace(/./g, " ")] *)
Definition writePad : jsstring :=
  replace_global match_dot (fun _ => [SPACE]) (js "[00/00 #0] ").

(** [s.replace(/\n/g, "\n" + writePad)] *)
Definition pad_newlines (s : jsstring) : jsstring :=
  replace_global (match_literal [LF]) (fun _ => LF :: writePad) s.

(** [displayName.match('/|\/')]: the string is the pattern [/|/], which
    matches exactly the names that contain a slash. *)
Definition contains_slash (name : jsstring) : bool :=
  existsb (N.eqb 47) name.

(** ** Numbers

    What the program does with a [number]: it prints it ([toString], template
    literals), parses it ([parseInt]), tests it ([points || 0]) and adds it
    (the dry-run total). *)
Class JSNumber (number : Type) := {
  num_zero : number;
  num_add : number -> number -> number;
  (** ToBoolean: false on [0], [-0] and [NaN] *)
  num_truthy : number -> bool;
  num_toString : number -> jsstring;
  num_parseInt : jsstring -> number;
}.

(** The integers and [NaN], enough to run the model. *)
Inductive SafeInt :=
| NaN
| Int (z : Z).

Fixpoint decimal_prefix (acc : option Z) (s : jsstring) : option Z :=
  match s with
  | c :: rest =>
      if (48 <=? c)%N && (c <=? 57)%N
      then decimal_prefix (Some (10 * default 0%Z acc + Z.of_N (c - 48))%Z) rest
      else acc
  | [] => acc
  end.

Definition SafeInt_parseInt (s : jsstring) : SafeInt :=
  match s with
  | 45%N :: rest =>
      match decimal_prefix None rest with Some z => Int (- z) | None => NaN end
  | _ =>
      match decimal_prefix None s with Some z => Int z | None => NaN end
  end.

#[export] Instance SafeInt_number : JSNumber SafeInt := {|
  num_zero := Int 0;
  num_add a b :=
    match a, b with
    | Int x, Int y => Int (x + y)
    | _, _ => NaN
    end;
  num_truthy a :=
    match a with
    | Int z => negb (z =? 0)%Z
    | NaN => false
    end;
  num_toString a :=
    match a with
    | Int z => js (NilZero.string_of_int (Z.to_int z))
    | NaN => js "NaN"
    end;
  num_parseInt := SafeInt_parseInt;
|}.

(** ** Faults *)

Inductive Error :=
(** [new Error(`BSOD: displayName contains a / (...)`)] *)
| BSOD (displayName : jsstring)
(** [new Error(`Unexpected status: ...`)] *)
| UnexpectedStatus (status : Z) (statusText : jsstring)
(** [new Error("Got no body")] *)
| GotNoBody
(** a rejection raised by the platform: network, file system, process *)
| Rejected (reason : jsstring).

Inductive Outcome (A : Type) :=
| Returned (a : A)
| Thrown (e : Error).
Arguments Returned {A} a.
Arguments Thrown {A} e.

(** ** What the world answers *)

Record Body := {
  chunks : list bytes;
  (** the body stream may fail after its chunks *)
  body_error : option Error;
}.

Record Response := {
  status : Z;
  statusText : jsstring;
  body : option Body;
}.

Record RestAttachment := {
  display_name : jsstring;
  url : jsstring;
}.

(** [Deno.ProcessStatus]: [success] is set exactly when the exit code is 0;
    a process killed by a signal has code 128 + signal. *)
Record ProcessStatus := {
  code : Z;
  signal : option Z;
}.

Definition success (st : ProcessStatus) : bool := (code st =? 0)%Z.

(** One resumption of the evaluator while a child runs.  The two reader
    loops and the chain of console writes are suspended at their [await]s;
    the scheduler decides which of them continues next. *)
Inductive StreamEvent :=
(** [process.stdout.read(buf)] returned this slice *)
| StdoutChunk (buf : bytes)
(** [process.stderr.read(buf)] returned this slice *)
| StderrChunk (buf : bytes)
(** the oldest pending link of [writePromise] runs *)
| Flush
(** a read rejected *)
| ReadRejects (e : Error).

Inductive StdinOutcome :=
| StdinDelivered
| StdinWriteRejects (e : Error)
| StdinCloseRejects (e : Error).

Record ChildRun := {
  (** [Deno.run] may throw (program not found, ...) *)
  spawn_error : option Error;
  stdin_outcome : StdinOutcome;
  (** how many stream events are handled before the input promise settles *)
  stdin_settles_after : nat;
  (** the interleaving; both streams have ended when it is exhausted *)
  schedule : list StreamEvent;
  exit_status : Outcome ProcessStatus;
}.

Inductive StdinCall :=
| StdinWrite (input : bytes)
| StdinClose.

(** [Deno.RunOptions]; the three streams are always piped. *)
Record RunOptions := {
  run_cmd : jsstring;
  run_cwd : positive;
  run_env : list (jsstring * jsstring);
}.

(** A child process as the program started it, and the calls made on its
    input stream. *)
Record ProcessRecord := {
  run_options : RunOptions;
  stdin_calls : list StdinCall;
}.

(** The state threaded through the links of [writePromise]. *)
Record WriteState := {
  clean : bool;
  bytesWritten : nat;
}.

(** A link of [writePromise] that has not run yet. *)
Inductive Task :=
(** chained by [write(buf)] *)
| TaskWrite (buf : bytes)
(** chained by the [catch] handler of the input promise *)
| TaskStdinFailed (e : Error).

(** The variables shared by the three concurrent blocks of one criterion:
    [output] and the chain [writePromise] (its pending links and the state
    its last settled link resolved to). *)
Record Mux := {
  output : jsstring;
  pending : list Task;
  written : WriteState;
}.

(** ** Data model, state and effects *)

Section Engine.

Context {number : Type} `{JSNumber number}.

(** [new TextEncoder().encode] and [new TextDecoder().decode] *)
Variable utf8_encode : jsstring -> bytes.
Variable utf8_decode : bytes -> jsstring.

Record CriteriaOutputData := {
  points : number;
  comments : option jsstring;
}.

(** [AssessmentOutputData]: the two fixed properties are created first
    (lines 365-368), [assessment_type] is always ['grading']; the
    [criterion_<id>] properties follow in insertion order. *)
Record AssessmentOutputData := {
  user_id : jsstring;
  criterion_fields : list (jsstring * CriteriaOutputData);
}.

Record SerializedIntermediateData := {
  data_canvas : jsstring;
  data_course : number;
  data_assignment : number;
  rubricAssociationId : option number;
  assessmentOutputDataList : list AssessmentOutputData;
}.

Record CriteriaData := {
  criteria_id : jsstring;
  criteria_description : jsstring;
  longDescription : jsstring;
  criteria_points : number;
}.

Record RubricData := {
  rubric_id : jsstring;
  rubric_title : jsstring;
  criteria : list CriteriaData;
  pointsPossible : number;
}.

Record UserData := {
  user_node_id : jsstring;
  user_name : jsstring;
}.

Record SubmissionData := {
  submission_id : jsstring;
  user : UserData;
}.

Record AssignmentData := {
  assignment_node_id : jsstring;
  assignment_name : jsstring;
  course_node_id : jsstring;
  rubric : RubricData;
  submissions : list SubmissionData;
}.

Record InputData := {
  input_rubricAssociationId : option number;
  input_assignment : AssignmentData;
}.

(** The module-level constants computed from the command line. *)
Record Config := {
  verbose : bool;
  dryRun : bool;
  canvas : jsstring;
  token : jsstring;
  assignment : number;
  users : option (list number);
  exceptUsers : list number;
  cmd : jsstring;
}.

(** The parsed answer of the grading endpoint; [errors] is what the program
    tests with [if (result.errors)]. *)
Record UploadResult := {
  errors : option jsstring;
}.

Inductive LogLine :=
| LogText (s : jsstring)
| LogSkipping (i total : nat) (submission user : jsstring)
| LogEvaluating (i total : nat) (submission user : jsstring)
| LogTesting (i total k : nat) (description : jsstring)
| LogExecuting (o : RunOptions)
| LogPipesClosed (bytesWritten : nat)
| LogOutputStatus (output : jsstring) (st : ProcessStatus)
| LogError (e : Error)
| LogAssessment (a : AssessmentOutputData)
| LogDataset (d : SerializedIntermediateData)
| LogUploading (association : option number)
| LogPosting (association : option number) (a : AssessmentOutputData)
| LogResults (rs : list UploadResult)
| LogResult (r : UploadResult).

Inductive ConsoleEvent :=
(** [Deno.stdout.write] *)
| StdoutWrite (b : bytes)
(** [console.log], [console.dir] *)
| ConsoleLog (l : LogLine).

Inductive Request :=
| GetSubmission (course : number) (assignment_node user : jsstring)
| GetAttachment (url : jsstring)
| PostAssessment (course : number) (association : option number)
    (a : AssessmentOutputData).

Record World := {
  makeTempDir_error : nat -> option Error;
  (** [fetch(...).then(r => r.json())] for submission [i] *)
  submission_rest : nat -> Outcome (list RestAttachment);
  (** [fetch(url)] for attachment [j] of submission [i] *)
  attachment_response : nat -> nat -> Outcome Response;
  (** the child started for criterion [k] of submission [i] *)
  child_run : nat -> nat -> ChildRun;
  (** [fetch(url, POST).then(r => r.json())] for the [k]-th record *)
  post_result : nat -> Outcome UploadResult;
}.

(** Directories hold named files; [heap] holds the dataset objects that are
    passed by reference. *)
Record St := {
  fs : gmap positive (list (jsstring * bytes));
  console : list ConsoleEvent;
  network : list Request;
  processes : list ProcessRecord;
  heap : gmap positive SerializedIntermediateData;
}.

Definition Eff (A : Type) : Type := St -> Outcome A * St.

Definition ret {A} (a : A) : Eff A := fun s => (Returned a, s).

Definition throw {A} (e : Error) : Eff A := fun s => (Thrown e, s).

Definition bind {A B} (m : Eff A) (k : A -> Eff B) : Eff B :=
  fun s =>
    match m s with
    | (Returned a, s') => k a s'
    | (Thrown e, s') => (Thrown e, s')
    end.

(** [try { body } finally { cleanup }]: the cleanup runs on both exits; when
    it completes normally the outcome of the body stands. *)
Definition try_finally {A} (body : Eff A) (cleanup : Eff unit) : Eff A :=
  fun s =>
    let (r, s1) := body s in
    match cleanup s1 with
    | (Returned _, s2) => (r, s2)
    | (Thrown e, s2) => (Thrown e, s2)
    end.

Definition when (b : bool) (m : Eff unit) : Eff unit :=
  if b then m else ret tt.

Definition lift {A} (o : Outcome A) : Eff A := fun s => (o, s).

Definition stdout_write (b : bytes) : Eff unit :=
  fun s => (Returned tt,
            {| fs := fs s; console := console s ++ [StdoutWrite b];
               network := network s; processes := processes s;
               heap := heap s |}).

Definition console_log (l : LogLine) : Eff unit :=
  fun s => (Returned tt,
            {| fs := fs s; console := console s ++ [ConsoleLog l];
               network := network s; processes := processes s;
               heap := heap s |}).

Definition request (r : Request) : Eff unit :=
  fun s => (Returned tt,
            {| fs := fs s; console := console s;
               network := network s ++ [r]; processes := processes s;
               heap := heap s |}).

Definition record_process (p : ProcessRecord) : Eff unit :=
  fun s => (Returned tt,
            {| fs := fs s; console := console s;
               network := network s; processes := processes s ++ [p];
               heap := heap s |}).

Definition set_fs (f : gmap positive (list (jsstring * bytes))) (s : St) : St :=
  {| fs := f; console := console s; network := network s;
     processes := processes s; heap := heap s |}.

Definition set_heap (h : gmap positive SerializedIntermediateData) (s : St) : St :=
  {| fs := fs s; console := console s; network := network s;
     processes := processes s; heap := h |}.

Declare Scope eff_scope.
Delimit Scope eff_scope with eff.
Notation "x <- m ;; k" := (bind m (fun x => k))
  (at level 100, m at next level, right associativity) : eff_scope.
Notation "m ;; k" := (bind m (fun _ => k))
  (at level 100, right associativity) : eff_scope.
Local Open Scope eff_scope.

(** A [for] loop over an array, with its index. *)
Fixpoint for_each {A} (f : nat -> A -> Eff unit) (j : nat) (l : list A) : Eff unit :=
  match l with
  | [] => ret tt
  | x :: rest => f j x ;; for_each f (S j) rest
  end.

(** ** The user filter (lines 354 and 547)

    [users?.every(user => user.toString() !== id) ||
     exceptUsers?.some(user => user.toString() === id)] *)
Definition excluded (cfg : Config) (id : jsstring) : bool :=
  match users cfg with
  | Some us => forallb (fun u => negb (jsstring_eqb (num_toString u) id)) us
  | None => false
  end
  || existsb (fun u => jsstring_eqb (num_toString u) id) (exceptUsers cfg).

(** ** The working directory *)

(** [Deno.makeTempDir]: a directory that did not exist before. *)
Definition makeTempDir (w : World) (i : nat) : Eff positive :=
  fun s =>
    match makeTempDir_error w i with
    | Some e => (Thrown e, s)
    | None =>
        let d := fresh (dom (fs s)) in
        (Returned d, set_fs (<[d := []]> (fs s)) s)
    end.

(** [Deno.remove(workDir, {recursive: true})] *)
Definition remove_recursive (d : positive) : Eff unit :=
  fun s =>
    match fs s !! d with
    | Some _ => (Returned tt, set_fs (delete d (fs s)) s)
    | None => (Thrown (Rejected (js "NotFound")), s)
    end.

(** The names without a slash that [join(workDir, name)] resolves to a
    directory. *)
Definition resolves_to_directory (name : jsstring) : bool :=
  jsstring_eqb name [] || jsstring_eqb name (js ".") || jsstring_eqb name (js "..").

(** [Deno.open(join(workDir, name), {createNew: true, write: true})] *)
Definition open_createNew (d : positive) (name : jsstring) : Eff unit :=
  fun s =>
    match fs s !! d with
    | Some files =>
        if resolves_to_directory name
           || existsb (fun f => jsstring_eqb (fst f) name) files
        then (Thrown (Rejected (js "AlreadyExists")), s)
        else (Returned tt, set_fs (<[d := files ++ [(name, [])]]> (fs s)) s)
    | None => (Thrown (Rejected (js "NotFound")), s)
    end.

(** [file.write(chunk)] *)
Definition file_write (d : positive) (name : jsstring) (chunk : bytes) : Eff unit :=
  fun s =>
    (Returned tt,
     set_fs (alter (map (fun f => if jsstring_eqb (fst f) name
                                  then (fst f, snd f ++ chunk) else f)) d (fs s)) s).

(** One turn of the attachment loop (lines 385-402). *)
Definition download_attachment (cfg : Config) (w : World) (i : nat)
    (workDir : positive) (j : nat) (att : RestAttachment) : Eff unit :=
  if contains_slash (display_name att) then throw (BSOD (display_name att))
  else
    request (GetAttachment (url att)) ;;
    response <- lift (attachment_response w i j) ;;
    if negb (status response =? 200)%Z
    then throw (UnexpectedStatus (status response) (statusText response))
    else
      match body response with
      | None => throw GotNoBody
      | Some b =>
          open_createNew workDir (display_name att) ;;
          for_each (fun _ chunk =>
                      file_write workDir (display_name att) chunk ;;
                      when (verbose cfg) (stdout_write chunk))
                   0 (chunks b) ;;
          match body_error b with
          | Some e => throw e
          | None => ret tt
          end
      end.

(** ** The stream multiplexer (lines 433-501) *)

(** The body of one link of [writePromise]. *)
Definition run_task (t : Task) (w : WriteState) : Eff WriteState :=
  match t with
  | TaskWrite buf =>
      stdout_write (utf8_encode (pad_newlines (utf8_decode buf))) ;;
      ret {| clean := match last buf with
                      | Some b => Byte.eqb b x0a
                      | None => clean w
                      end;
             bytesWritten := bytesWritten w + length buf |}
  | TaskStdinFailed e =>
      stdout_write [if clean w then x0d else x0a] ;;
      console_log (LogText (js "Failed writing process input")) ;;
      console_log (LogError e) ;;
      stdout_write (utf8_encode writePad) ;;
      ret {| clean := true; bytesWritten := bytesWritten w |}
  end.

(** [write(buf)]: one more link on the chain. *)
Definition write (buf : bytes) (m : Mux) : Mux :=
  {| output := output m;
     pending := pending m ++ [TaskWrite buf];
     written := written m |}.

Definition processed_message (bytesRead : nat) : jsstring :=
  js "[processed " ++ nat_toString bytesRead ++ js " bytes from stdout]".

Definition handle_event (cfg : Config) (ev : StreamEvent) (m : Mux) : Eff Mux :=
  match ev with
  | StdoutChunk buf =>
      let m1 := write buf m in
      let m2 := {| output := output m1 ++ utf8_decode buf;
                   pending := pending m1;
                   written := written m1 |} in
      when (verbose cfg)
           (stdout_write (utf8_encode (processed_message (length buf)))) ;;
      ret m2
  | StderrChunk buf =>
      let m1 := write buf m in
      when (verbose cfg)
           (stdout_write (utf8_encode (processed_message (length buf)))) ;;
      ret m1
  | Flush =>
      match pending m with
      | [] => ret m
      | t :: ts =>
          w' <- run_task t (written m) ;;
          ret {| output := output m; pending := ts; written := w' |}
      end
  | ReadRejects e => throw e
  end.

Fixpoint handle_events (cfg : Config) (evs : list StreamEvent) (m : Mux) : Eff Mux :=
  match evs with
  | [] => ret m
  | ev :: rest => m' <- handle_event cfg ev m ;; handle_events cfg rest m'
  end.

(** The [catch] handler of the input promise. *)
Definition settle_stdin (o : StdinOutcome) (m : Mux) : Mux :=
  match o with
  | StdinDelivered => m
  | StdinWriteRejects e | StdinCloseRejects e =>
      {| output := output m;
         pending := pending m ++ [TaskStdinFailed e];
         written := written m |}
  end.

(** [await writePromise]: every pending link runs, oldest first. *)
Fixpoint flush_all (ts : list Task) (w : WriteState) : Eff WriteState :=
  match ts with
  | [] => ret w
  | t :: rest => w' <- run_task t w ;; flush_all rest w'
  end.

(** The calls the input block makes: [write(input)], then [close()] unless
    the write rejected. *)
Definition stdin_calls_of (o : StdinOutcome) (input : bytes) : list StdinCall :=
  match o with
  | StdinWriteRejects _ => [StdinWrite input]
  | StdinDelivered | StdinCloseRejects _ => [StdinWrite input; StdinClose]
  end.

(** ** The criterion evaluator (lines 405-517) *)

Definition run_env_of (a : AssignmentData) (u : UserData) (c : CriteriaData)
  : list (jsstring * jsstring) :=
  [ (js "ASSIGNMENT_ID", assignment_node_id a);
    (js "ASSIGNMENT_NAME", assignment_name a);
    (js "USER_ID", user_node_id u);
    (js "USER_NAME", user_name u);
    (js "RUBRIC_ID", rubric_id (rubric a));
    (js "RUBRIC_TITLE", rubric_title (rubric a));
    (js "RUBRIC_POINTS", num_toString (pointsPossible (rubric a)));
    (js "CRITERIA_ID", criteria_id c);
    (js "CRITERIA_DESCRIPTION", criteria_description c);
    (js "CRITERIA_POINTS", num_toString (criteria_points c)) ].

Definition new_mux : Mux :=
  {| output := []; pending := [];
     written := {| clean := true; bytesWritten := 0 |} |}.

(** The three blocks run until [Promise.all] settles. *)
Definition drain (cfg : Config) (run : ChildRun) : Eff Mux :=
  m1 <- handle_events cfg (take (stdin_settles_after run) (schedule run)) new_mux ;;
  handle_events cfg (drop (stdin_settles_after run) (schedule run))
                (settle_stdin (stdin_outcome run) m1).

Definition evaluate_criterion (cfg : Config) (a : AssignmentData) (u : UserData)
    (workDir : positive) (i total k : nat) (c : CriteriaData) (run : ChildRun)
  : Eff CriteriaOutputData :=
  console_log (LogTesting (S i) total (S k) (criteria_description c)) ;;
  let runOpts := {| run_cmd := cmd cfg; run_cwd := workDir;
                    run_env := run_env_of a u c |} in
  when (verbose cfg) (console_log (LogExecuting runOpts)) ;;
  match spawn_error run with
  | Some e => throw e
  | None => ret tt
  end ;;
  stdout_write (utf8_encode writePad) ;;
  record_process
    {| run_options := runOpts;
       stdin_calls := stdin_calls_of (stdin_outcome run)
                        (utf8_encode (stdin_text (longDescription c))) |} ;;
  m <- drain cfg run ;;
  w' <- flush_all (pending m) (written m) ;;
  stdout_write [if clean w' then x0d else x0a] ;;
  when (verbose cfg) (console_log (LogPipesClosed (bytesWritten w'))) ;;
  st <- lift (exit_status run) ;;
  when (verbose cfg) (console_log (LogOutputStatus (output m) st)) ;;
  ret {| points := if success st then criteria_points c else num_zero;
         comments := Some (normalize_comments (output m)) |}.

(** [assessmentOutputData[key] = value]: an existing property keeps its
    place, a new one goes last. *)
Fixpoint set_property (key : jsstring) (v : CriteriaOutputData)
    (fields : list (jsstring * CriteriaOutputData)) :=
  match fields with
  | [] => [(key, v)]
  | (k, old) :: rest =>
      if jsstring_eqb k key then (k, v) :: rest
      else (k, old) :: set_property key v rest
  end.

Definition criterion_key (c : CriteriaData) : jsstring :=
  js "criterion_" ++ criteria_id c.

Fixpoint criteria_loop (cfg : Config) (w : World) (a : AssignmentData)
    (u : UserData) (workDir : positive) (i total k : nat)
    (cs : list CriteriaData) (aod : AssessmentOutputData)
  : Eff AssessmentOutputData :=
  match cs with
  | [] => ret aod
  | c :: rest =>
      r <- evaluate_criterion cfg a u workDir i total k c (child_run w i k) ;;
      criteria_loop cfg w a u workDir i total (S k) rest
        {| user_id := user_id aod;
           criterion_fields :=
             set_property (criterion_key c) r (criterion_fields aod) |}
  end.

(** ** The orchestrator (lines 337-543) *)

(** The body of the [try] block. *)
Definition in_workspace (cfg : Config) (w : World) (a : AssignmentData)
    (course : number) (i : nat) (u : UserData) (workDir : positive)
  : Eff AssessmentOutputData :=
  request (GetSubmission course (assignment_node_id a) (user_node_id u)) ;;
  attachments <- lift (submission_rest w i) ;;
  for_each (download_attachment cfg w i workDir) 0 attachments ;;
  criteria_loop cfg w a u workDir i (length (submissions a)) 0
    (criteria (rubric a))
    {| user_id := user_node_id u; criterion_fields := [] |}.

(** The [finally] block. *)
Definition cleanup (cfg : Config) (workDir : positive) : Eff unit :=
  when (verbose cfg) (console_log (LogText (js "Cleaning up..."))) ;;
  remove_recursive workDir.

(** One turn of the submission loop; [acc] is
    [intermediateData.assessmentOutputDataList]. *)
Definition evaluate_submission (cfg : Config) (w : World) (a : AssignmentData)
    (course : number) (i : nat) (sub : SubmissionData)
    (acc : list AssessmentOutputData) : Eff (list AssessmentOutputData) :=
  let total := length (submissions a) in
  if excluded cfg (user_node_id (user sub)) then
    when (verbose cfg)
         (console_log (LogSkipping (S i) total (submission_id sub)
                                   (user_name (user sub)))) ;;
    ret acc
  else
    console_log (LogEvaluating (S i) total (submission_id sub)
                               (user_name (user sub))) ;;
    workDir <- makeTempDir w i ;;
    aod <- try_finally (in_workspace cfg w a course i (user sub) workDir)
                       (cleanup cfg workDir) ;;
    when (verbose cfg) (console_log (LogAssessment aod)) ;;
    ret (acc ++ [aod]).

Fixpoint submission_loop (cfg : Config) (w : World) (a : AssignmentData)
    (course : number) (i : nat) (subs : list SubmissionData)
    (acc : list AssessmentOutputData) : Eff (list AssessmentOutputData) :=
  match subs with
  | [] => ret acc
  | sub :: rest =>
      acc' <- evaluate_submission cfg w a course i sub acc ;;
      submission_loop cfg w a course (S i) rest acc'
  end.

Definition evaluate (cfg : Config) (w : World) (input : InputData)
  : Eff SerializedIntermediateData :=
  let a := input_assignment input in
  let course := num_parseInt (course_node_id a) in
  l <- submission_loop cfg w a course 0 (submissions a) [] ;;
  let intermediateData :=
    {| data_canvas := canvas cfg; data_course := course;
       data_assignment := assignment cfg;
       rubricAssociationId := input_rubricAssociationId input;
       assessmentOutputDataList := l |} in
  when (verbose cfg)
       (console_log (LogText []) ;;
        console_log (LogText (js "Done evaluating all submissions.")) ;;
        console_log (LogDataset intermediateData)) ;;
  ret intermediateData.

(** ** The upload pipeline (lines 545-608) *)

(** A property value of an assessment record, as [Object.values] lists it. *)
Inductive PropertyValue :=
| StringValue (s : jsstring)
| CriteriaValue (c : CriteriaOutputData).

Definition object_values (a : AssessmentOutputData) : list PropertyValue :=
  StringValue (user_id a) :: StringValue (js "grading")
    :: map (fun f => CriteriaValue (snd f)) (criterion_fields a).

(** [criteria => criteria.points || 0]; a string has no [points]. *)
Definition points_or_zero (v : PropertyValue) : number :=
  match v with
  | StringValue _ => num_zero
  | CriteriaValue c => if num_truthy (points c) then points c else num_zero
  end.

(** [Array.prototype.reduce] without an initial value. *)
Definition reduce (f : number -> number -> number) (l : list number)
  : Outcome number :=
  match l with
  | [] => Thrown (Rejected (js "TypeError"))
  | x :: rest => Returned (fold_left f rest x)
  end.

Definition dry_run_points (a : AssessmentOutputData) : Outcome number :=
  reduce num_add (map points_or_zero (object_values a)).

Definition would_upload_line (p : number) (a : AssessmentOutputData) : jsstring :=
  js "Would upload assessment of " ++ num_toString p
    ++ js " points for " ++ user_id a.

Definition upload_finished_line (failed total : nat) : jsstring :=
  js "Upload finished (" ++ nat_toString failed ++ js " failed of "
    ++ nat_toString total ++ js ").".

(** The callback of [filter], with its message for a dropped record. *)
Fixpoint filter_records (cfg : Config) (l : list AssessmentOutputData)
  : Eff (list AssessmentOutputData) :=
  match l with
  | [] => ret []
  | a :: rest =>
      if excluded cfg (user_id a) then
        console_log (LogText (js "Filtered out user " ++ user_id a)) ;;
        filter_records cfg rest
      else
        kept <- filter_records cfg rest ;;
        ret (a :: kept)
  end.

Definition deref (ref : positive) : Eff SerializedIntermediateData :=
  fun s =>
    match heap s !! ref with
    | Some d => (Returned d, s)
    | None => (Thrown (Rejected (js "TypeError")), s)
    end.

(** The object [d] with its list property set to [l]. *)
Definition with_list (l : list AssessmentOutputData)
    (d : SerializedIntermediateData) : SerializedIntermediateData :=
  {| data_canvas := data_canvas d;
     data_course := data_course d;
     data_assignment := data_assignment d;
     rubricAssociationId := rubricAssociationId d;
     assessmentOutputDataList := l |}.

(** [data.assessmentOutputDataList = l] *)
Definition assign_list (ref : positive) (l : list AssessmentOutputData) : Eff unit :=
  fun s => (Returned tt, set_heap (alter (with_list l) ref (heap s)) s).

(** One turn of the upload loop; the accumulator is ([results], [errors]). *)
Definition upload_record (cfg : Config) (w : World) (course : number)
    (association : option number) (k : nat) (a : AssessmentOutputData)
    (acc : list UploadResult * list UploadResult)
  : Eff (list UploadResult * list UploadResult) :=
  when (verbose cfg) (console_log (LogPosting association a)) ;;
  result <- (if dryRun cfg then
               p <- lift (dry_run_points a) ;;
               console_log (LogText (would_upload_line p a)) ;;
               ret {| errors := None |}
             else
               request (PostAssessment course association a) ;;
               lift (post_result w k)) ;;
  match errors result with
  | Some _ =>
      stdout_write (utf8_encode (js "E")) ;;
      ret (fst acc ++ [result], snd acc ++ [result])
  | None =>
      when (negb (dryRun cfg)) (stdout_write (utf8_encode (js "#"))) ;;
      ret (fst acc ++ [result], snd acc)
  end.

Fixpoint upload_loop (cfg : Config) (w : World) (course : number)
    (association : option number) (k : nat) (l : list AssessmentOutputData)
    (acc : list UploadResult * list UploadResult)
  : Eff (list UploadResult * list UploadResult) :=
  match l with
  | [] => ret acc
  | a :: rest =>
      acc' <- upload_record cfg w course association k a acc ;;
      upload_loop cfg w course association (S k) rest acc'
  end.

(** [upload(data)]; [data] is a reference to the caller's object. *)
Definition upload (cfg : Config) (w : World) (data : positive)
  : Eff (list UploadResult) :=
  d <- deref data ;;
  kept <- filter_records cfg (assessmentOutputDataList d) ;;
  assign_list data kept ;;
  when (verbose cfg) (console_log (LogUploading (rubricAssociationId d))) ;;
  for_each (fun _ _ => stdout_write (utf8_encode (js "_"))) 0 kept ;;
  stdout_write (utf8_encode (js ".")) ;;
  console_log (LogText []) ;;
  acc <- upload_loop cfg w (data_course d) (rubricAssociationId d) 0 kept ([], []) ;;
  when (negb (dryRun cfg)) (stdout_write (utf8_encode (js "|"))) ;;
  console_log (LogText []) ;;
  when (verbose cfg) (console_log (LogResults (fst acc))) ;;
  for_each (fun _ e => console_log (LogResult e)) 0 (snd acc) ;;
  console_log (LogText (upload_finished_line (length (snd acc)) (length kept))) ;;
  ret (fst acc).

(** [upload({...intermediateData, rubricAssociationId})] (lines 199 and 227):
    the spread makes a new object that shares the list. *)
Definition upload_copy (cfg : Config) (w : World) (data : positive)
    (association : number) : Eff (list UploadResult) :=
  d <- deref data ;;
  copy <- (fun s =>
             let l := fresh (dom (heap s)) in
             (Returned l,
              set_heap (<[l := {| data_canvas := data_canvas d;
                                  data_course := data_course d;
                                  data_assignment := data_assignment d;
                                  rubricAssociationId := Some association;
                                  assessmentOutputDataList :=
                                    assessmentOutputDataList d |}]> (heap s)) s)) ;;
  upload cfg w copy.

End Engine.

Arguments CriteriaOutputData number : clear implicits.
Arguments AssessmentOutputData number : clear implicits.
Arguments SerializedIntermediateData number : clear implicits.
Arguments CriteriaData number : clear implicits.
Arguments RubricData number : clear implicits.
Arguments AssignmentData number : clear implicits.
Arguments InputData number : clear implicits.
Arguments Config number : clear implicits.
Arguments St number : clear implicits.
Arguments Eff number A : clear implicits.

(** ** The reading of a text as lines, and of a text as segments *)

(** [join sep [s0; s1; ...]] is [s0 ++ sep ++ s1 ++ sep ++ ...]. *)
Fixpoint join (sep : jsstring) (segs : list jsstring) : jsstring :=
  match segs with
  | [] => []
  | [s] => s
  | s :: rest => s ++ sep ++ join sep rest
  end.

(** [pat] occurs in [s]. *)
Definition Occurs (pat s : jsstring) : Prop :=
  exists a b, s = a ++ pat ++ b.

Fixpoint occursb (pat s : jsstring) : bool :=
  prefixb pat s ||
  match s with
  | [] => false
  | _ :: rest => occursb pat rest
  end.

(** A line: [indent] spaces, then a body that does not start with a space
    and holds no line terminator. *)
Record Line := {
  indent : nat;
  line_body : jsstring;
}.

Definition line_text (sp : N) (l : Line) : jsstring :=
  repeat sp (indent l) ++ line_body l.

Definition line_ok (l : Line) : Prop :=
  head (line_body l) <> Some SPACE /\
  Forall (fun c => isLineTerminator c = false) (line_body l).

(** Lines with their terminators, and a last line without one; the leading
    spaces are written as [sp]. *)
Fixpoint text_of_lines (sp : N) (ls : list (Line * N)) (last : Line) : jsstring :=
  match ls with
  | [] => line_text sp last
  | (l, t) :: rest => line_text sp l ++ t :: text_of_lines sp rest last
  end.

Definition lines_ok (ls : list (Line * N)) (last : Line) : Prop :=
  Forall (fun lt => line_ok (fst lt) /\ isLineTerminator (snd lt) = true) ls
  /\ line_ok last.

(** The chunks read from the output stream, in the order of the schedule. *)
Fixpoint stdout_chunks (evs : list StreamEvent) : list bytes :=
  match evs with
  | [] => []
  | StdoutChunk buf :: rest => buf :: stdout_chunks rest
  | _ :: rest => stdout_chunks rest
  end.

Definition no_read_rejects (evs : list StreamEvent) : bool :=
  forallb (fun ev => match ev with ReadRejects _ => false | _ => true end) evs.

Definition stdin_error (o : StdinOutcome) : option Error :=
  match o with
  | StdinDelivered => None
  | StdinWriteRejects e | StdinCloseRejects e => Some e
  end.

(** The same child, had its input been delivered. *)
Definition with_stdin_delivered (run : ChildRun) : ChildRun :=
  {| spawn_error := spawn_error run;
     stdin_outcome := StdinDelivered;
     stdin_settles_after := stdin_settles_after run;
     schedule := schedule run;
     exit_status := exit_status run |}.

(** Whether a console event is a write to the stream or a logged line. *)
Definition is_stdout_write {number} (ev : @ConsoleEvent number) : bool :=
  match ev with
  | StdoutWrite _ => true
  | ConsoleLog _ => false
  end.

(** ** Vocabulary of the properties *)

Section Vocabulary.

Context {number : Type} `{JSNumber number}.
Variable utf8_decode : bytes -> jsstring.

Abbreviation State := (St number).

(** Every run of [m] relates the state before to the state after, whatever
    the outcome. *)
Definition respects (R : relation State) {A} (m : Eff number A) : Prop :=
  forall s o s', m s = (o, s') -> R s s'.

(** [m] leaves the component [f] of the state alone. *)
Definition keeps {X} (f : State -> X) : relation State :=
  fun s s' => f s' = f s.

(** Once [P] holds it holds for good. *)
Definition stable (P : State -> Prop) : relation State :=
  fun s s' => P s -> P s'.

(** The text of the chunks read from the output stream. *)
Definition captured (evs : list StreamEvent) : jsstring :=
  concat (map utf8_decode (stdout_chunks evs)).

(** [m] completes normally from every state. *)
Definition returns {A} (m : Eff number A) : Prop :=
  forall s, exists a s', m s = (Returned a, s').

Definition criterion_result (c : CriteriaData number) (run : ChildRun)
    (st : ProcessStatus) : CriteriaOutputData number :=
  {| points := if success st then criteria_points c else num_zero;
     comments := Some (normalize_comments (captured (schedule run))) |}.

(** The console only grows, so a warning once shown stays shown. *)
Definition warned (e : Error) (s : State) : Prop :=
  In (ConsoleLog (LogText (js "Failed writing process input"))) (console s)
  /\ In (ConsoleLog (LogError e)) (console s).

(** Only the directory [d] may change, and it is not removed. *)
Definition only_dir (d : positive) : relation State :=
  fun s s' =>
    (forall d', d' <> d -> fs s' !! d' = fs s !! d')
    /\ (is_Some (fs s !! d) -> is_Some (fs s' !! d)).

(** [m] fails from every state. *)
Definition throws {A} (m : Eff number A) : Prop :=
  forall s, exists e s', m s = (Thrown e, s').

(** The state after more console events. *)
Definition log_console (evs : list (@ConsoleEvent number)) (s : State) : State :=
  {| fs := fs s; console := console s ++ evs; network := network s;
     processes := processes s; heap := heap s |}.

(** The sum of the points of a record, a falsy [points] counting as 0; the
    two string properties contribute the leading [0 + 0]. *)
Definition total_points (a : AssessmentOutputData number) : number :=
  fold_left num_add
    (map (fun f => if num_truthy (points (snd f)) then points (snd f)
                   else num_zero)
         (criterion_fields a))
    (num_add num_zero num_zero).

Definition keep_record (cfg : Config number) (a : AssessmentOutputData number)
  : bool :=
  negb (excluded cfg (user_id a)).

(** What a dry run shows for one record. *)
Definition dry_run_events (cfg : Config number) (association : option number)
    (a : AssessmentOutputData number) : list (@ConsoleEvent number) :=
  (if verbose cfg then [ConsoleLog (LogPosting association a)] else [])
  ++ [ConsoleLog (LogText (would_upload_line (total_points a) a))].

(** What a dry run of [upload] shows for the dataset [d]. *)
Definition dry_run_console (utf8_encode : jsstring -> bytes)
    (cfg : Config number) (d : SerializedIntermediateData number)
  : list (@ConsoleEvent number) :=
  let l := assessmentOutputDataList d in
  let kept := List.filter (keep_record cfg) l in
  map (fun a => ConsoleLog (LogText (js "Filtered out user " ++ user_id a)))
      (List.filter (fun a => excluded cfg (user_id a)) l)
  ++ (if verbose cfg then [ConsoleLog (LogUploading (rubricAssociationId d))]
      else [])
  ++ map (fun _ => StdoutWrite (utf8_encode (js "_"))) kept
  ++ [StdoutWrite (utf8_encode (js ".")); ConsoleLog (LogText [])]
  ++ flat_map (dry_run_events cfg (rubricAssociationId d)) kept
  ++ [ConsoleLog (LogText [])]
  ++ (if verbose cfg
      then [ConsoleLog (LogResults (map (fun _ => {| errors := None |}) kept))]
      else [])
  ++ [ConsoleLog (LogText (upload_finished_line 0 (length kept)))].

(** The chunks read from either stream, in the order of the schedule. *)
Definition chunk_of_event (ev : StreamEvent) : list bytes :=
  match ev with
  | StdoutChunk buf | StderrChunk buf => [buf]
  | Flush | ReadRejects _ => []
  end.

Definition all_chunks (evs : list StreamEvent) : list bytes :=
  flat_map chunk_of_event evs.

(** The links put on [writePromise] while a child runs, in the order they
    were chained: one per chunk, and the one of the [catch] handler at the
    point where the input promise settled. *)
Definition tasks_pushed (run : ChildRun) : list Task :=
  map TaskWrite (all_chunks (take (stdin_settles_after run) (schedule run)))
  ++ match stdin_error (stdin_outcome run) with
     | Some e => [TaskStdinFailed e]
     | None => []
     end
  ++ map TaskWrite (all_chunks (drop (stdin_settles_after run) (schedule run))).

(** What the console shows for one chunk. *)
Definition shown_chunk (utf8_encode : jsstring -> bytes) (buf : bytes)
  : @ConsoleEvent number :=
  StdoutWrite (utf8_encode (pad_newlines (utf8_decode buf))).

(** The value a link of [writePromise] resolves to. *)
Definition next_write_state (t : Task) (w : WriteState) : WriteState :=
  match t with
  | TaskWrite buf =>
      {| clean := match last buf with
                  | Some b => Byte.eqb b x0a
                  | None => clean w
                  end;
         bytesWritten := bytesWritten w + length buf |}
  | TaskStdinFailed _ => {| clean := true; bytesWritten := bytesWritten w |}
  end.

Definition final_write_state (ts : list Task) (w : WriteState) : WriteState :=
  fold_left (fun w t => next_write_state t w) ts w.

(** [fields[key]]: the value of a property of the record, if it has one. *)
Fixpoint get_property (key : jsstring)
    (fields : list (jsstring * CriteriaOutputData number))
  : option (CriteriaOutputData number) :=
  match fields with
  | [] => None
  | (k, v) :: rest =>
      if jsstring_eqb k key then Some v else get_property key rest
  end.

(** The assignments of the criterion loop, one after the other. *)
Definition set_properties (rs : list (jsstring * CriteriaOutputData number))
    (fields : list (jsstring * CriteriaOutputData number)) :=
  fold_left (fun f kv => set_property (fst kv) (snd kv) f) rs fields.

(** The requests that read from the server. *)
Definition is_get (r : @Request number) : bool :=
  match r with
  | GetSubmission _ _ _ | GetAttachment _ => true
  | PostAssessment _ _ _ => false
  end.

(** The network log has grown by reading requests only. *)
Definition only_gets : relation State :=
  fun s s' => exists l, network s' = network s ++ l /\ forallb is_get l = true.

(** A child that starts, whose streams end and whose status arrives. *)
Definition healthy_child (run : ChildRun) : Prop :=
  spawn_error run = None
  /\ no_read_rejects (schedule run) = true
  /\ exists st, exit_status run = Returned st.

(** A submission for which nothing goes wrong: its directory is made, its
    attachments are listed, have distinct display names that can be file
    names, each is answered 200 with a body that streams to its end, and
    the children of the first [n] criteria are healthy. *)
Definition healthy_submission (w : World) (n i : nat) : Prop :=
  makeTempDir_error w i = None
  /\ exists atts,
       submission_rest w i = Returned atts
       /\ List.NoDup (map display_name atts)
       /\ Forall (fun att => contains_slash (display_name att) = false
                             /\ resolves_to_directory (display_name att) = false)
                 atts
       /\ (forall j att, atts !! j = Some att ->
             exists resp b,
               attachment_response w i j = Returned resp
               /\ status resp = 200%Z /\ body resp = Some b
               /\ body_error b = None)
       /\ forall k, k < n -> healthy_child (child_run w i k).

(** The state after more console events and more requests. *)
Definition extend (evs : list (@ConsoleEvent number))
    (reqs : list (@Request number)) (s : State) : State :=
  {| fs := fs s; console := console s ++ evs; network := network s ++ reqs;
     processes := processes s; heap := heap s |}.

(** [if (result.errors)] *)
Definition has_errors (r : UploadResult) : bool :=
  match errors r with
  | Some _ => true
  | None => false
  end.

(** What a real upload shows for one record and its answer. *)
Definition posted_events (utf8_encode : jsstring -> bytes) (cfg : Config number)
    (association : option number)
    (ar : AssessmentOutputData number * UploadResult)
  : list (@ConsoleEvent number) :=
  (if verbose cfg then [ConsoleLog (LogPosting association (fst ar))] else [])
  ++ [StdoutWrite (utf8_encode (js (if has_errors (snd ar) then "E" else "#")))].

(** What a real upload of the dataset [d] shows when the records it keeps
    are answered by [results]. *)
Definition real_upload_console (utf8_encode : jsstring -> bytes)
    (cfg : Config number) (d : SerializedIntermediateData number)
    (results : list UploadResult) : list (@ConsoleEvent number) :=
  let l := assessmentOutputDataList d in
  let kept := List.filter (keep_record cfg) l in
  map (fun a => ConsoleLog (LogText (js "Filtered out user " ++ user_id a)))
      (List.filter (fun a => excluded cfg (user_id a)) l)
  ++ (if verbose cfg then [ConsoleLog (LogUploading (rubricAssociationId d))]
      else [])
  ++ map (fun _ => StdoutWrite (utf8_encode (js "_"))) kept
  ++ [StdoutWrite (utf8_encode (js ".")); ConsoleLog (LogText [])]
  ++ flat_map (posted_events utf8_encode cfg (rubricAssociationId d))
              (combine kept results)
  ++ [StdoutWrite (utf8_encode (js "|")); ConsoleLog (LogText [])]
  ++ (if verbose cfg then [ConsoleLog (LogResults results)] else [])
  ++ map (fun r => ConsoleLog (LogResult r)) (List.filter has_errors results)
  ++ [ConsoleLog
        (LogText (upload_finished_line
                    (length (List.filter has_errors results)) (length kept)))].

End Vocabulary.

(** ** Sample data for running the model *)

Module Sample.

(** A one-byte codec, for texts below U+0100. *)
Definition decode (b : bytes) : jsstring := map Byte.to_N b.

Definition encode (s : jsstring) : bytes :=
  map (fun c => default x3f (Byte.of_N c)) s.

Definition cfg : Config SafeInt :=
  {| verbose := false; dryRun := false;
     canvas := js "https://canvas.example"; token := js "t";
     assignment := Int 7; users := None; exceptUsers := [];
     cmd := js "bash test.sh" |}.

Definition dry : Config SafeInt :=
  {| verbose := false; dryRun := true;
     canvas := js "https://canvas.example"; token := js "t";
     assignment := Int 7; users := None; exceptUsers := [];
     cmd := js "bash test.sh" |}.

(** allow-list [{2}], empty deny-list *)
Definition only_u2 : Config SafeInt :=
  {| verbose := false; dryRun := false;
     canvas := js "https://canvas.example"; token := js "t";
     assignment := Int 7; users := Some [Int 2]; exceptUsers := [];
     cmd := js "bash test.sh" |}.

(** no allow-list, deny-list [{3}], dry run *)
Definition except_u3 : Config SafeInt :=
  {| verbose := false; dryRun := true;
     canvas := js "https://canvas.example"; token := js "t";
     assignment := Int 7; users := None; exceptUsers := [Int 3];
     cmd := js "bash test.sh" |}.

Definition c1 : CriteriaData SafeInt :=
  {| criteria_id := js "_1"; criteria_description := js "compiles";
     longDescription := js "make<br/>" ++ [CR; LF] ++ js "./run";
     criteria_points := Int 3 |}.

Definition c2 : CriteriaData SafeInt :=
  {| criteria_id := js "_2"; criteria_description := js "passes";
     longDescription := js "check"; criteria_points := Int 2 |}.

Definition sub (id : string) : SubmissionData :=
  {| submission_id := js ("s" ++ id);
     user := {| user_node_id := js id; user_name := js ("user " ++ id) |} |}.

Definition the_assignment : AssignmentData SafeInt :=
  {| assignment_node_id := js "7"; assignment_name := js "hw";
     course_node_id := js "5";
     rubric := {| rubric_id := js "9"; rubric_title := js "r";
                  criteria := [c1; c2]; pointsPossible := Int 5 |};
     submissions := [sub "1"; sub "2"] |}.

Definition input : InputData SafeInt :=
  {| input_rubricAssociationId := Some (Int 11);
     input_assignment := the_assignment |}.

Definition exited (c : Z) : Outcome ProcessStatus :=
  Returned {| code := c; signal := None |}.

(** Output and error chunks interleaved, the chain flushed in between. *)
Definition run_ok (c : Z) : ChildRun :=
  {| spawn_error := None; stdin_outcome := StdinDelivered;
     stdin_settles_after := 1;
     schedule := [StdoutChunk (list_byte_of_string "  ok:");
                  StderrChunk (list_byte_of_string "warn");
                  Flush;
                  StdoutChunk (list_byte_of_string " a b")];
     exit_status := exited c |}.


(** Two lines of output, indented by two spaces and by one. *)
Definition run_lines : ChildRun :=
  {| spawn_error := None; stdin_outcome := StdinDelivered;
     stdin_settles_after := 0;
     schedule := [StdoutChunk (list_byte_of_string "  a b" ++ [x0a]);
                  StderrChunk (list_byte_of_string " e");
                  StdoutChunk (list_byte_of_string " c")];
     exit_status := exited 0 |}.

(** The child exits before reading its input. *)
Definition run_broken_pipe (c : Z) : ChildRun :=
  {| spawn_error := None;
     stdin_outcome := StdinWriteRejects (Rejected (js "BrokenPipe"));
     stdin_settles_after := 1;
     schedule := [StdoutChunk (list_byte_of_string "hi"); Flush];
     exit_status := exited c |}.

Definition attachment : RestAttachment :=
  {| display_name := js "main.c"; url := js "https://files.example/1" |}.

Definition ok_response : Response :=
  {| status := 200; statusText := js "OK";
     body := Some {| chunks := [list_byte_of_string "int main"];
                     body_error := None |} |}.

Definition not_found : Response :=
  {| status := 404; statusText := js "Not Found"; body := None |}.

(** Every download succeeds; the first criterion passes, the second fails. *)
Definition world : World :=
  {| makeTempDir_error := fun _ => None;
     submission_rest := fun _ => Returned [attachment];
     attachment_response := fun _ _ => Returned ok_response;
     child_run := fun _ k => run_ok (Z.of_nat k);
     post_result := fun _ => Returned {| errors := None |} |}.

(** The attachment of the first submission answers 404. *)
Definition world_404 : World :=
  {| makeTempDir_error := fun _ => None;
     submission_rest := fun _ => Returned [attachment];
     attachment_response :=
       fun i _ => match i with
                  | O => Returned not_found
                  | S _ => Returned ok_response
                  end;
     child_run := fun _ k => run_ok (Z.of_nat k);
     post_result := fun _ => Returned {| errors := None |} |}.

Definition s0 : St SafeInt :=
  {| fs := ∅; console := []; network := []; processes := []; heap := ∅ |}.

Definition record42 : AssessmentOutputData SafeInt :=
  {| user_id := js "42";
     criterion_fields :=
       [(js "criterion__1", {| points := Int 3; comments := Some (js "ok") |});
        (js "criterion__2", {| points := Int 0; comments := Some [] |})] |}.

Definition record3 : AssessmentOutputData SafeInt :=
  {| user_id := js "3"; criterion_fields := [] |}.

Definition dataset (l : list (AssessmentOutputData SafeInt))
  : SerializedIntermediateData SafeInt :=
  {| data_canvas := js "https://canvas.example"; data_course := Int 5;
     data_assignment := Int 7; rubricAssociationId := Some (Int 11);
     assessmentOutputDataList := l |}.

(** A state whose heap holds one dataset, at reference 1. *)
Definition with_dataset (l : list (AssessmentOutputData SafeInt)) : St SafeInt :=
  {| fs := ∅; console := []; network := []; processes := [];
     heap := {[ 1%positive := dataset l ]} |}.

(** A criterion that repeats the id of [c1]. *)
Definition c1_again : CriteriaData SafeInt :=
  {| criteria_id := js "_1"; criteria_description := js "again";
     longDescription := js "retry"; criteria_points := Int 4 |}.

(** A rubric in which one id occurs twice. *)
Definition repeating_assignment : AssignmentData SafeInt :=
  {| assignment_node_id := js "7"; assignment_name := js "hw";
     course_node_id := js "5";
     rubric := {| rubric_id := js "9"; rubric_title := js "r";
                  criteria := [c1; c1_again]; pointsPossible := Int 7 |};
     submissions := [sub "1"] |}.

(** A display name that is a path. *)
Definition nested_attachment : RestAttachment :=
  {| display_name := js "src/main.c"; url := js "https://files.example/2" |}.

(** The second post is rejected. *)
Definition world_post_rejected : World :=
  {| makeTempDir_error := fun _ => None;
     submission_rest := fun _ => Returned [attachment];
     attachment_response := fun _ _ => Returned ok_response;
     child_run := fun _ k => run_ok (Z.of_nat k);
     post_result :=
       fun k => match k with
                | 1 => Thrown (Rejected (js "connection reset"))
                | _ => Returned {| errors := None |}
                end |}.

End Sample.

(** * Properties *)

Section Properties.

Context {number : Type} `{JSNumber number}.
Variable utf8_encode : jsstring -> bytes.
Variable utf8_decode : bytes -> jsstring.

Abbreviation State := (St number).
Abbreviation returns := (@returns number _).
Abbreviation throws := (@throws number _).
Abbreviation respects R := (@respects number R _).
Abbreviation keeps := (@keeps number _).
Abbreviation stable := (@stable number).
Abbreviation warned := (@warned number).
Abbreviation only_dir := (@only_dir number).

(** ** Reasoning about effects *)




#[local] Instance keeps_preorder {X} (f : State -> X) : PreOrder (keeps f).
Proof.
  split.
  - intros s. reflexivity.
  - intros s1 s2 s3 H12 H23. unfold keeps in *. congruence.
Qed.

#[local] Instance stable_preorder (P : State -> Prop) : PreOrder (stable P).
Proof.
  split.
  - intros s HP. exact HP.
  - intros s1 s2 s3 H12 H23 HP. auto.
Qed.

Lemma bind_Returned {A B} (m : Eff number A) (k : A -> Eff number B) s b s' :
  bind m k s = (Returned b, s') ->
  exists a s1, m s = (Returned a, s1) /\ k a s1 = (Returned b, s').
Proof.
  unfold bind. destruct (m s) as [[a|e] s1]; [eauto | discriminate].
Qed.

Lemma bind_run {A B} (m : Eff number A) (k : A -> Eff number B) s a s1 :
  m s = (Returned a, s1) -> bind m k s = k a s1.
Proof. intros E. unfold bind. rewrite E. reflexivity. Qed.

Lemma bind_throws {A B} (m : Eff number A) (k : A -> Eff number B) s e s1 :
  m s = (Thrown e, s1) -> bind m k s = (Thrown e, s1).
Proof. intros E. unfold bind. rewrite E. reflexivity. Qed.

Section Frame.

Variable R : relation State.
Context `{!PreOrder R}.

Lemma respects_ret {A} (a : A) : respects R (ret a).
Proof. intros s o s' E. injection E as <- <-. reflexivity. Qed.

Lemma respects_throw {A} e : respects R (@throw number A e).
Proof. intros s o s' E. injection E as <- <-. reflexivity. Qed.

Lemma respects_lift {A} (x : Outcome A) : respects R (lift x).
Proof. intros s o s' E. injection E as <- <-. reflexivity. Qed.

Lemma respects_bind {A B} (m : Eff number A) (k : A -> Eff number B) :
  respects R m -> (forall a, respects R (k a)) -> respects R (bind m k).
Proof.
  intros Hm Hk s o s' E. unfold bind in E.
  destruct (m s) as [[a|e] s1] eqn:Em.
  - transitivity s1; [eapply Hm | eapply Hk]; eassumption.
  - injection E as <- <-. eapply Hm; eassumption.
Qed.

Lemma respects_when b (m : Eff number unit) :
  respects R m -> respects R (when b m).
Proof. intros Hm. destruct b; [exact Hm | apply respects_ret]. Qed.

Lemma respects_try_finally {A} (m : Eff number A) (c : Eff number unit) :
  respects R m -> respects R c -> respects R (try_finally m c).
Proof.
  intros Hm Hc s o s' E. unfold try_finally in E.
  destruct (m s) as [r s1] eqn:Em.
  destruct (c s1) as [[[]|e] s2] eqn:Ec; injection E as <- <-;
    (transitivity s1; [eapply Hm | eapply Hc]; eassumption).
Qed.

Lemma respects_for_each {A} (f : nat -> A -> Eff number unit) l :
  (forall j x, respects R (f j x)) -> forall j, respects R (for_each f j l).
Proof.
  intros Hf. induction l as [|x l IH]; intros j; simpl.
  - apply respects_ret.
  - apply respects_bind; [apply Hf | intros _; apply IH].
Qed.

(** The multiplexer only touches the console. *)
Hypothesis R_stdout_write : forall b, respects R (stdout_write b).
Hypothesis R_console_log : forall l, respects R (console_log l).

Lemma respects_run_task t w :
  respects R (run_task utf8_encode utf8_decode t w).
Proof.
  destruct t; simpl;
    repeat (apply respects_bind; [|intros ?]);
    auto using respects_ret.
Qed.

Lemma respects_handle_event cfg ev m :
  respects R (handle_event utf8_encode utf8_decode cfg ev m).
Proof.
  destruct ev; simpl.
  - apply respects_bind; [apply respects_when; auto | intros; apply respects_ret].
  - apply respects_bind; [apply respects_when; auto | intros; apply respects_ret].
  - destruct (pending m); [apply respects_ret|].
    apply respects_bind; [apply respects_run_task | intros; apply respects_ret].
  - apply respects_throw.
Qed.

Lemma respects_handle_events cfg evs :
  forall m, respects R (handle_events utf8_encode utf8_decode cfg evs m).
Proof.
  induction evs as [|ev evs IH]; intros m; simpl.
  - apply respects_ret.
  - apply respects_bind; [apply respects_handle_event | intros; apply IH].
Qed.

Lemma respects_drain cfg run :
  respects R (drain utf8_encode utf8_decode cfg run).
Proof.
  unfold drain. apply respects_bind; [|intros ?]; apply respects_handle_events.
Qed.

Lemma respects_flush_all ts :
  forall w, respects R (flush_all utf8_encode utf8_decode ts w).
Proof.
  induction ts as [|t ts IH]; intros w; simpl.
  - apply respects_ret.
  - apply respects_bind; [apply respects_run_task | intros; apply IH].
Qed.

(** The criterion evaluator touches the console and the process table. *)
Hypothesis R_record_process : forall p, respects R (record_process p).

Lemma respects_evaluate_criterion cfg a u d i total k c run :
  respects R (evaluate_criterion utf8_encode utf8_decode cfg a u d i total k c run).
Proof.
  unfold evaluate_criterion. cbv zeta.
  repeat (apply respects_bind; [|intros ?]);
    try apply respects_when;
    auto using respects_ret, respects_lift, respects_handle_events,
      respects_flush_all.
  destruct (spawn_error run); [apply respects_throw | apply respects_ret].
Qed.

Lemma respects_criteria_loop cfg w a u d i total cs :
  forall k aod,
    respects R (criteria_loop utf8_encode utf8_decode cfg w a u d i total k cs aod).
Proof.
  induction cs as [|c cs IH]; intros k aod; simpl.
  - apply respects_ret.
  - apply respects_bind; [apply respects_evaluate_criterion | intros; apply IH].
Qed.

End Frame.

(** ** The two text substitutions *)

Lemma prefixb_app p b : prefixb p (p ++ b) = true.
Proof.
  induction p as [|a p IH]; simpl; [reflexivity|].
  rewrite N.eqb_refl. exact IH.
Qed.

Lemma prefixb_true p s : prefixb p s = true -> exists b, s = p ++ b.
Proof.
  revert s. induction p as [|a p IH]; intros s Hp; simpl in *.
  - exists s. reflexivity.
  - destruct s as [|c s]; [discriminate|].
    destruct (N.eqb_spec a c) as [->|]; [|discriminate].
    destruct (IH _ Hp) as [b ->]. exists b. reflexivity.
Qed.

Lemma occursb_unfold pat s :
  occursb pat s
  = prefixb pat s || match s with [] => false | _ :: r => occursb pat r end.
Proof. destruct s; reflexivity. Qed.

Lemma occursb_Occurs pat s : occursb pat s = true <-> Occurs pat s.
Proof.
  split.
  - induction s as [|c s IH]; rewrite occursb_unfold; intros Ho.
    + rewrite orb_false_r in Ho. apply prefixb_true in Ho as [b ->].
      exists [], b. reflexivity.
    + apply orb_true_iff in Ho as [Hp|Ho].
      * apply prefixb_true in Hp as [b ->]. exists [], b. reflexivity.
      * destruct (IH Ho) as (x & y & ->). exists (c :: x), y. reflexivity.
  - intros (x & y & ->). induction x as [|c x IH]; simpl app;
      rewrite occursb_unfold.
    + rewrite prefixb_app. reflexivity.
    + rewrite IH. apply orb_true_r.
Qed.

Lemma prefixb_app_r p s t : prefixb p s = true -> prefixb p (s ++ t) = true.
Proof.
  intros Hp. apply prefixb_true in Hp as [b ->].
  rewrite <- app_assoc. apply prefixb_app.
Qed.




Abbreviation replace_br := (replace_from (match_literal BR_CRLF) (fun _ => [LF])).





Lemma first_occurrence pat text :
  pat <> [] -> Occurs pat text ->
  exists a b, text = a ++ pat ++ b /\ ~ Occurs pat a.
Proof.
  intros Hpat Ho. apply occursb_Occurs in Ho.
  induction text as [|c text IH]; rewrite occursb_unfold in Ho.
  - rewrite orb_false_r in Ho. apply prefixb_true in Ho as [b Hb].
    destruct pat; [congruence | discriminate].
  - destruct (prefixb pat (c :: text)) eqn:Hp.
    + apply prefixb_true in Hp as [b Hb]. exists [], b. split; [exact Hb|].
      intros (x & y & E). destruct x, pat; try discriminate; congruence.
    + simpl in Ho. destruct (IH Ho) as (a & b & -> & Hna).
      exists (c :: a), b. split; [reflexivity|].
      intros Hoc. apply occursb_Occurs in Hoc. rewrite occursb_unfold in Hoc.
      apply orb_true_iff in Hoc as [Hp'|Hoc].
      * apply prefixb_app_r with (t := pat ++ b) in Hp'.
        simpl app in Hp'. congruence.
      * apply Hna. apply occursb_Occurs. exact Hoc.
Qed.

(** Every text reads as segments between the occurrences of the pattern. *)
Lemma segments_exist text :
  exists segs, segs <> []
               /\ Forall (fun seg => ~ Occurs BR_CRLF seg) segs
               /\ text = join BR_CRLF segs.
Proof.
  induction text as [text IH] using (induction_ltof1 _ (@length N)).
  unfold ltof in IH.
  destruct (occursb BR_CRLF text) eqn:Ho.
  - apply occursb_Occurs in Ho.
    destruct (first_occurrence BR_CRLF text) as (a & b & -> & Hna);
      [discriminate | exact Ho |].
    destruct (IH b) as (segs & Hne & Hall & ->).
    { rewrite !length_app. simpl. lia. }
    exists (a :: segs). split; [discriminate|]. split.
    + constructor; assumption.
    + destruct segs; [congruence | reflexivity].
  - exists [text]. split; [discriminate|]. split; [|reflexivity].
    constructor; [|constructor]. intros Hoc.
    apply occursb_Occurs in Hoc. congruence.
Qed.

Abbreviation replace_ls :=
  (replace_from match_leading_spaces
                (fun m => repeat PUNCTUATION_SPACE (length m))).

Lemma replace_from_no_match m r p c s :
  m p (c :: s) = 0 ->
  replace_from m r p 0 (c :: s) = c :: replace_from m r (Some c) 0 s.
Proof. intros Hm. simpl. rewrite Hm. reflexivity. Qed.

Lemma span_length_run n tail :
  head tail <> Some SPACE ->
  span_length (N.eqb SPACE) (repeat SPACE n ++ tail) = n.
Proof.
  intros Hh. induction n as [|n IH]; cbn [repeat app span_length].
  - destruct tail as [|c t]; [reflexivity|]. cbn [span_length].
    destruct (N.eqb_spec SPACE c) as [<-|]; [|reflexivity].
    exfalso. apply Hh. reflexivity.
  - rewrite N.eqb_refl, IH. reflexivity.
Qed.

Lemma span_length_not_space s :
  head s <> Some SPACE -> span_length (N.eqb SPACE) s = 0.
Proof. apply (span_length_run 0). Qed.

Lemma skip_run m r n tail :
  replace_from m r (Some SPACE) n (repeat SPACE n ++ tail)
  = replace_from m r (Some SPACE) 0 tail.
Proof. induction n as [|n IH]; [reflexivity | exact IH]. Qed.

Lemma replace_ls_leading_run p n tail :
  at_line_start p = true -> head tail <> Some SPACE ->
  replace_ls p 0 (repeat SPACE (S n) ++ tail)
  = repeat PUNCTUATION_SPACE (S n) ++ replace_ls (Some SPACE) 0 tail.
Proof.
  intros Hp Hh.
  change (replace_ls p 0 (repeat SPACE (S n) ++ tail))
    with (match match_leading_spaces p (repeat SPACE (S n) ++ tail) with
          | S k => repeat PUNCTUATION_SPACE
                     (length (firstn (S k) (repeat SPACE (S n) ++ tail)))
                   ++ replace_ls (Some SPACE) k (repeat SPACE n ++ tail)
          | O => SPACE :: replace_ls (Some SPACE) 0 (repeat SPACE n ++ tail)
          end).
  unfold match_leading_spaces. rewrite Hp, span_length_run by exact Hh.
  rewrite skip_run. f_equal. f_equal.
  rewrite length_take, length_app, repeat_length. lia.
Qed.

Lemma replace_ls_body body : forall p rest,
  Forall (fun c => isLineTerminator c = false) body ->
  at_line_start p = false \/ head body <> Some SPACE ->
  exists p', replace_ls p 0 (body ++ rest) = body ++ replace_ls p' 0 rest.
Proof.
  induction body as [|c body IH]; intros p rest Hall Hp.
  - exists p. reflexivity.
  - inversion Hall as [|? ? Hc Hbody]; subst.
    destruct (IH (Some c) rest Hbody) as [p' Hp']; [left; exact Hc|].
    exists p'. simpl app. rewrite replace_from_no_match.
    + rewrite Hp'. reflexivity.
    + unfold match_leading_spaces. destruct Hp as [-> | Hh]; [reflexivity|].
      rewrite span_length_not_space by exact Hh.
      destruct (at_line_start p); reflexivity.
Qed.

Lemma terminator_not_space t : isLineTerminator t = true -> t <> SPACE.
Proof. intros Ht ->. discriminate Ht. Qed.

Lemma replace_ls_terminator p t rest :
  isLineTerminator t = true ->
  replace_ls p 0 (t :: rest) = t :: replace_ls (Some t) 0 rest.
Proof.
  intros Ht. apply replace_from_no_match.
  unfold match_leading_spaces. rewrite span_length_not_space.
  - destruct (at_line_start p); reflexivity.
  - simpl. intros [= E]. eapply terminator_not_space; eauto.
Qed.

(** One line, followed by the end of the text or by a terminator. *)
Lemma replace_ls_line l p rest :
  line_ok l -> at_line_start p = true ->
  head rest <> Some SPACE ->
  exists p', replace_ls p 0 (line_text SPACE l ++ rest)
             = line_text PUNCTUATION_SPACE l ++ replace_ls p' 0 rest.
Proof.
  intros [Hh Hall] Hp Hrest. unfold line_text. rewrite <- !app_assoc.
  assert (Htail : head (line_body l ++ rest) <> Some SPACE).
  { destruct (line_body l); [exact Hrest | exact Hh]. }
  destruct (indent l) as [|n].
  - simpl. apply replace_ls_body; [exact Hall | right; exact Hh].
  - rewrite replace_ls_leading_run by assumption.
    destruct (replace_ls_body (line_body l) (Some SPACE) rest Hall) as [p' E];
      [left; reflexivity|].
    exists p'. rewrite E, <- app_assoc. reflexivity.
Qed.

Lemma replace_ls_lines last ls : forall p,
  at_line_start p = true -> lines_ok ls last ->
  replace_ls p 0 (text_of_lines SPACE ls last)
  = text_of_lines PUNCTUATION_SPACE ls last.
Proof.
  induction ls as [|[l t] ls IH]; intros p Hp [Hls Hlast]; simpl.
  - destruct (replace_ls_line last p [] Hlast Hp) as [p' E]; [discriminate|].
    rewrite !app_nil_r in E. exact E.
  - inversion Hls as [|? ? [Hl Ht] Hrest]; subst. simpl in Hl, Ht.
    destruct (replace_ls_line l p (t :: text_of_lines SPACE ls last) Hl Hp)
      as [p' E].
    { simpl. intros [= E]. eapply terminator_not_space; eauto. }
    rewrite E, replace_ls_terminator by exact Ht.
    rewrite IH; [reflexivity | exact Ht | split; assumption].
Qed.

(** Every text reads as lines. *)
Lemma lines_exist text :
  exists ls last, lines_ok ls last /\ text = text_of_lines SPACE ls last.
Proof.
  induction text as [|c text IH].
  - exists [], {| indent := 0; line_body := [] |}.
    repeat split; simpl; [constructor | discriminate | constructor].
  - destruct IH as (ls & last & [Hls Hlast] & ->).
    destruct (isLineTerminator c) eqn:Ht.
    + exists (({| indent := 0; line_body := [] |}, c) :: ls), last.
      split; [|reflexivity]. split; [|exact Hlast].
      constructor; [|exact Hls]. simpl.
      repeat split; [discriminate | constructor | exact Ht].
    + set (grow := fun l : Line =>
                     if (c =? SPACE)%N
                     then {| indent := S (indent l); line_body := line_body l |}
                     else {| indent := 0;
                             line_body := c :: repeat SPACE (indent l)
                                            ++ line_body l |}).
      assert (Htext : forall l, line_text SPACE (grow l) = c :: line_text SPACE l).
      { intros l. unfold grow, line_text.
        destruct (N.eqb_spec c SPACE) as [->|]; reflexivity. }
      assert (Hok : forall l, line_ok l -> line_ok (grow l)).
      { intros l [Hh Hall]. unfold grow.
        destruct (N.eqb_spec c SPACE) as [->|Hne]; [split; assumption|].
        split; simpl; [congruence|].
        constructor; [exact Ht|]. apply Forall_app. split; [|exact Hall].
        apply Forall_forall. intros x Hx. apply list_elem_of_In in Hx.
        apply repeat_spec in Hx as ->. reflexivity. }
      destruct ls as [|[l t] ls].
      * exists [], (grow last). split; [split; [constructor | auto]|].
        exact (eq_sym (Htext last)).
      * exists ((grow l, t) :: ls), last.
        inversion Hls as [|? ? [Hl Hterm] Hrest]; subst.
        split.
        -- split; [|exact Hlast]. constructor; [|exact Hrest].
           split; [apply Hok, Hl | exact Hterm].
        -- exact (f_equal (fun x => x ++ t :: text_of_lines SPACE ls last)
                          (eq_sym (Htext l))).
Qed.

(** ** The multiplexer *)



Lemma returns_ret {A} (a : A) : returns (ret a : Eff number A).
Proof. intros s. eexists _, _. reflexivity. Qed.

Lemma returns_bind {A B} (m : Eff number A) (k : A -> Eff number B) :
  returns m -> (forall a, returns (k a)) -> returns (bind m k).
Proof.
  intros Hm Hk s. destruct (Hm s) as (a & s1 & Em).
  destruct (Hk a s1) as (b & s2 & Ek).
  exists b, s2. rewrite (bind_run _ _ _ _ _ Em). exact Ek.
Qed.

Lemma returns_stdout_write b : returns (stdout_write b : Eff number unit).
Proof. intros s. eexists _, _. reflexivity. Qed.

Lemma returns_console_log l : returns (@console_log number l).
Proof. intros s. eexists _, _. reflexivity. Qed.

Lemma returns_record_process p : returns (@record_process number p).
Proof. intros s. eexists _, _. reflexivity. Qed.

Lemma returns_when b (m : Eff number unit) : returns m -> returns (when b m).
Proof. intros Hm. destruct b; [exact Hm | apply returns_ret]. Qed.

Lemma returns_lift {A} (a : A) : returns (lift (Returned a) : Eff number A).
Proof. intros s. eexists _, _. reflexivity. Qed.

Create HintDb returns.
#[local] Hint Resolve returns_ret returns_stdout_write returns_console_log
  returns_record_process returns_when returns_lift : returns.

Lemma returns_run_task t w : returns (run_task utf8_encode utf8_decode t w).
Proof.
  destruct t; simpl; repeat (apply returns_bind; [|intros ?]);
    auto with returns.
Qed.

Lemma returns_flush_all ts :
  forall w, returns (flush_all utf8_encode utf8_decode ts w).
Proof.
  induction ts as [|t ts IH]; intros w; simpl; [apply returns_ret|].
  apply returns_bind; [apply returns_run_task | intros; apply IH].
Qed.

Lemma returns_handle_events cfg evs :
  no_read_rejects evs = true ->
  forall m, returns (handle_events utf8_encode utf8_decode cfg evs m).
Proof.
  induction evs as [|ev evs IH]; intros Hok m; simpl; [apply returns_ret|].
  simpl in Hok. apply andb_true_iff in Hok as [Hev Hok].
  apply returns_bind; [|intros; apply IH, Hok].
  destruct ev; simpl; try discriminate;
    repeat (apply returns_bind; [|intros ?]); auto with returns.
  destruct (pending m); [apply returns_ret|].
  apply returns_bind; [apply returns_run_task | intros; apply returns_ret].
Qed.

Lemma no_read_rejects_app l1 l2 :
  no_read_rejects (l1 ++ l2) = no_read_rejects l1 && no_read_rejects l2.
Proof. apply forallb_app. Qed.

Lemma returns_drain cfg run :
  no_read_rejects (schedule run) = true ->
  returns (drain utf8_encode utf8_decode cfg run).
Proof.
  intros Hok. unfold drain.
  rewrite <- (take_drop (stdin_settles_after run) (schedule run)) in Hok.
  rewrite no_read_rejects_app in Hok. apply andb_true_iff in Hok as [H1 H2].
  apply returns_bind; [|intros ?]; apply returns_handle_events; assumption.
Qed.

Lemma stdout_chunks_app l1 l2 :
  stdout_chunks (l1 ++ l2) = stdout_chunks l1 ++ stdout_chunks l2.
Proof.
  induction l1 as [|ev l1 IH]; [reflexivity|].
  destruct ev; simpl; rewrite IH; reflexivity.
Qed.

Lemma captured_app l1 l2 : captured utf8_decode (l1 ++ l2) = captured utf8_decode l1 ++ captured utf8_decode l2.
Proof.
  unfold captured. rewrite stdout_chunks_app, map_app. apply concat_app.
Qed.

Lemma handle_event_output (cfg : Config number) ev m s m' s' :
  handle_event utf8_encode utf8_decode cfg ev m s = (Returned m', s') ->
  output m' = output m ++ captured utf8_decode [ev].
Proof.
  unfold captured. intros E. destruct ev; simpl in *.
  - apply bind_Returned in E as (? & ? & _ & E). injection E as <- _.
    simpl. rewrite app_nil_r. reflexivity.
  - apply bind_Returned in E as (? & ? & _ & E). injection E as <- _.
    simpl. rewrite app_nil_r. reflexivity.
  - rewrite app_nil_r. destruct (pending m).
    + injection E as <- _. reflexivity.
    + apply bind_Returned in E as (? & ? & _ & E). injection E as <- _.
      reflexivity.
  - discriminate.
Qed.

Lemma handle_events_output (cfg : Config number) evs : forall m s m' s',
  handle_events utf8_encode utf8_decode cfg evs m s = (Returned m', s') ->
  output m' = output m ++ captured utf8_decode evs.
Proof.
  induction evs as [|ev evs IH]; intros m s m' s' E; simpl in E.
  - injection E as <- _. unfold captured. simpl. rewrite app_nil_r. reflexivity.
  - apply bind_Returned in E as (m1 & s1 & E1 & E).
    rewrite (IH _ _ _ _ E), (handle_event_output _ _ _ _ _ _ E1).
    change (ev :: evs) with ([ev] ++ evs).
    rewrite captured_app, app_assoc. reflexivity.
Qed.

Lemma settle_stdin_output o m : output (settle_stdin o m) = output m.
Proof. destruct o; reflexivity. Qed.

Lemma drain_output (cfg : Config number) run s m s' :
  drain utf8_encode utf8_decode cfg run s = (Returned m, s') ->
  output m = captured utf8_decode (schedule run).
Proof.
  unfold drain. intros E. apply bind_Returned in E as (m1 & s1 & E1 & E).
  apply handle_events_output in E, E1.
  rewrite E, settle_stdin_output, E1. simpl.
  rewrite <- captured_app, take_drop. reflexivity.
Qed.

(** ** The criterion evaluator *)


Lemma evaluate_criterion_Returned (cfg : Config number) a u d i total k c run
    s r s' :
  evaluate_criterion utf8_encode utf8_decode cfg a u d i total k c run s
    = (Returned r, s') ->
  exists st, exit_status run = Returned st /\ spawn_error run = None
             /\ r = criterion_result utf8_decode c run st.
Proof.
  unfold evaluate_criterion. cbv zeta. intros E.
  repeat (apply bind_Returned in E as (? & ? & ? & E)).
  match goal with
  | Hl : lift (exit_status run) _ = (Returned ?st, _) |- _ =>
      exists st; injection Hl as Hl _
  end.
  split; [assumption|]. split.
  - destruct (spawn_error run); [discriminate | reflexivity].
  - injection E as <- _. unfold criterion_result.
    match goal with
    | Hd : drain _ _ _ _ _ = (Returned _, _) |- _ =>
        rewrite (drain_output _ _ _ _ _ Hd)
    end.
    reflexivity.
Qed.

Lemma evaluate_criterion_returns cfg a u d i total k c run st :
  spawn_error run = None ->
  no_read_rejects (schedule run) = true ->
  exit_status run = Returned st ->
  returns (evaluate_criterion utf8_encode utf8_decode cfg a u d i total k c run).
Proof.
  intros Hsp Hok Hst. unfold evaluate_criterion. cbv zeta.
  rewrite Hsp, Hst.
  repeat first [ apply returns_drain; assumption
               | apply returns_flush_all
               | apply returns_bind; [|intros ?] ];
    auto with returns.
Qed.


Lemma warned_stdout_write e b : respects (stable (warned e)) (stdout_write b).
Proof.
  intros s o s' E [H1 H2]. injection E as <- <-.
  split; simpl; apply in_or_app; left; assumption.
Qed.

Lemma warned_console_log e l : respects (stable (warned e)) (console_log l).
Proof.
  intros s o s' E [H1 H2]. injection E as <- <-.
  split; simpl; apply in_or_app; left; assumption.
Qed.

Lemma run_task_warns e w s o s' :
  run_task utf8_encode utf8_decode (TaskStdinFailed e) w s = (o, s') ->
  warned e s'.
Proof.
  intros E. injection E as <- <-. split; simpl; rewrite <- !app_assoc;
    apply in_or_app; right; simpl; auto.
Qed.

Lemma handle_event_warns e (cfg : Config number) ev m s m' s' :
  handle_event utf8_encode utf8_decode cfg ev m s = (Returned m', s') ->
  In (TaskStdinFailed e) (pending m) \/ warned e s ->
  In (TaskStdinFailed e) (pending m') \/ warned e s'.
Proof.
  intros E [Hin|Hw].
  - destruct ev; simpl in E.
    + apply bind_Returned in E as (? & ? & _ & E). injection E as <- _.
      left. simpl. apply in_or_app. left. exact Hin.
    + apply bind_Returned in E as (? & ? & _ & E). injection E as <- _.
      left. simpl. apply in_or_app. left. exact Hin.
    + destruct (pending m) as [|t ts]; [destruct Hin|].
      apply bind_Returned in E as (w' & s1 & Et & E). injection E as <- <-.
      destruct Hin as [->|Hin]; [right | left; exact Hin].
      eapply run_task_warns, Et.
    + discriminate.
  - right. revert Hw.
    eapply (respects_handle_event (stable (warned e))); [..|exact E];
      auto using warned_stdout_write, warned_console_log.
Qed.

Lemma handle_events_warns e (cfg : Config number) evs : forall m s m' s',
  handle_events utf8_encode utf8_decode cfg evs m s = (Returned m', s') ->
  In (TaskStdinFailed e) (pending m) \/ warned e s ->
  In (TaskStdinFailed e) (pending m') \/ warned e s'.
Proof.
  induction evs as [|ev evs IH]; intros m s m' s' E Hi; simpl in E.
  - injection E as <- <-. exact Hi.
  - apply bind_Returned in E as (m1 & s1 & E1 & E).
    eapply IH; [exact E|]. eapply handle_event_warns; eassumption.
Qed.

Lemma flush_all_warns e ts : forall w s w' s',
  flush_all utf8_encode utf8_decode ts w s = (Returned w', s') ->
  In (TaskStdinFailed e) ts \/ warned e s -> warned e s'.
Proof.
  induction ts as [|t ts IH]; intros w s w' s' E Hi; simpl in E.
  - injection E as _ <-. destruct Hi as [[]|Hw]. exact Hw.
  - apply bind_Returned in E as (w1 & s1 & Et & E).
    eapply IH; [exact E|]. destruct Hi as [[->|Hin]|Hw].
    + right. eapply run_task_warns, Et.
    + left. exact Hin.
    + right. revert Hw.
      eapply (respects_run_task (stable (warned e))); [..|exact Et];
        auto using warned_stdout_write, warned_console_log.
Qed.

Lemma drain_warns e (cfg : Config number) run s m s' :
  stdin_error (stdin_outcome run) = Some e ->
  drain utf8_encode utf8_decode cfg run s = (Returned m, s') ->
  In (TaskStdinFailed e) (pending m) \/ warned e s'.
Proof.
  unfold drain. intros He E.
  apply bind_Returned in E as (m1 & s1 & _ & E).
  eapply handle_events_warns; [exact E|]. left.
  destruct (stdin_outcome run); simpl in *; try discriminate;
    injection He as ->; apply in_or_app; right; left; reflexivity.
Qed.

Ltac push_warned e :=
  match goal with
  | Hs : _ ?s1 = (_, ?s2), Hw : warned e ?s1 |- _ =>
      assert (warned e s2)
        by (revert Hw;
            first [ apply (warned_stdout_write e _ _ _ _ Hs)
                  | apply (respects_lift (stable (warned e)) _ _ _ _ Hs)
                  | eapply (respects_when (stable (warned e)));
                    [apply warned_console_log | exact Hs] ]);
      clear Hw
  end.

Lemma evaluate_criterion_warns (cfg : Config number) a u d i total k c run
    e s r s' :
  stdin_error (stdin_outcome run) = Some e ->
  evaluate_criterion utf8_encode utf8_decode cfg a u d i total k c run s
    = (Returned r, s') ->
  warned e s'.
Proof.
  unfold evaluate_criterion. cbv zeta. intros He E.
  repeat (apply bind_Returned in E as (? & ? & ? & E)).
  injection E as _ <-.
  match goal with
  | Hd : drain _ _ _ _ _ = _, Hf : flush_all _ _ _ _ _ = _ |- _ =>
      apply (drain_warns e) in Hd; [|exact He];
      apply (flush_all_warns e) in Hf; [|exact Hd]; clear Hd
  end.
  repeat push_warned e. assumption.
Qed.

(** A primitive that does not touch the component [f]. *)
Ltac prim_keeps :=
  unfold respects, keeps; intros;
  match goal with
  | Ep : _ = (_, _) |- _ => injection Ep as <- <-
  end;
  reflexivity.

Ltac frame_keeps :=
  repeat first [ typeclasses eauto
               | apply respects_drain
               | apply respects_flush_all
               | apply respects_when
               | apply respects_ret
               | apply respects_lift
               | apply respects_throw
               | apply respects_bind; [| |intros ?]
               | prim_keeps ].

Lemma bind_run_in {A B} (m : Eff number A) (k : A -> Eff number B) s a s1 r :
  m s = (Returned a, s1) -> bind m k s = r -> k a s1 = r.
Proof. intros Em E. rewrite (bind_run _ _ _ _ _ Em) in E. exact E. Qed.

(** Runs the first action of a sequence when it computes. *)
Ltac run_step E := eapply bind_run_in in E; [|reflexivity].


(** ** Claims about one criterion *)

(** C1. A criterion evaluation that produces a result produces the
    criterion's points when the child exited with status zero and 0 when it
    exited with any other status, and never another value; and a child that
    starts, whose streams end and whose status arrives does produce a
    result. *)
Theorem criterion_points_follow_exit_status
    (cfg : Config number) a u d i total k c run (s : State) :
  (forall r s',
      evaluate_criterion utf8_encode utf8_decode cfg a u d i total k c run s
        = (Returned r, s') ->
      exists st, exit_status run = Returned st
                 /\ (code st = 0%Z -> points r = criteria_points c)
                 /\ (code st <> 0%Z -> points r = num_zero)
                 /\ (points r = criteria_points c \/ points r = num_zero))
  /\ (forall st,
         spawn_error run = None ->
         no_read_rejects (schedule run) = true ->
         exit_status run = Returned st ->
         exists r s',
           evaluate_criterion utf8_encode utf8_decode cfg a u d i total k c run s
             = (Returned r, s')).
Proof.
  split.
  - intros r s' E.
    apply evaluate_criterion_Returned in E as (st & Hst & _ & ->).
    exists st. split; [exact Hst|]. unfold criterion_result, success. simpl.
    destruct (Z.eqb_spec (code st) 0) as [Hz|Hz]; repeat split; auto;
      intros; congruence.
  - intros st Hsp Hok Hst.
    apply (evaluate_criterion_returns cfg a u d i total k c run st Hsp Hok Hst).
Qed.



(** C7. In the stored comments every line's leading run of spaces is
    replaced by as many U+2008 characters, and every other character, the
    interior spaces included, is kept (the captured text is read as lines:
    an indent, a body that does not start with a space, a terminator). *)
Theorem comments_leading_spaces_substituted
    (cfg : Config number) a u d i total k c run (s : State) r s' ls last :
  evaluate_criterion utf8_encode utf8_decode cfg a u d i total k c run s
    = (Returned r, s') ->
  lines_ok ls last ->
  captured utf8_decode (schedule run) = text_of_lines SPACE ls last ->
  comments r = Some (text_of_lines PUNCTUATION_SPACE ls last).
Proof.
  intros E Hok Htext.
  apply evaluate_criterion_Returned in E as (st & _ & _ & ->).
  unfold criterion_result. simpl. f_equal.
  unfold normalize_comments, replace_global. rewrite Htext.
  apply replace_ls_lines; [reflexivity | exact Hok].
Qed.

(** C8. When writing the instructional text (or closing the stream) is
    rejected, the criterion evaluation still completes normally: the
    warning and the error are shown on the console, the points follow the
    exit status alone, and the result is the one the same child would have
    given had its input been delivered. *)
Theorem stdin_failure_is_tolerated
    (cfg : Config number) a u d i total k c run st e (s : State) :
  stdin_error (stdin_outcome run) = Some e ->
  spawn_error run = None ->
  no_read_rejects (schedule run) = true ->
  exit_status run = Returned st ->
  exists r s',
    evaluate_criterion utf8_encode utf8_decode cfg a u d i total k c run s
      = (Returned r, s')
    /\ points r = (if success st then criteria_points c else num_zero)
    /\ In (ConsoleLog (LogText (js "Failed writing process input"))) (console s')
    /\ In (ConsoleLog (LogError e)) (console s')
    /\ fst (evaluate_criterion utf8_encode utf8_decode cfg a u d i total k c
              (with_stdin_delivered run) s) = Returned r.
Proof.
  intros He Hsp Hok Hst.
  destruct (evaluate_criterion_returns cfg a u d i total k c run st Hsp Hok Hst s)
    as (r & s' & E).
  exists r, s'. split; [exact E|].
  destruct (evaluate_criterion_warns _ _ _ _ _ _ _ _ _ _ _ _ _ He E) as [W1 W2].
  apply evaluate_criterion_Returned in E as (st' & Hst' & _ & ->).
  assert (st' = st) by congruence. subst st'.
  repeat split; [exact W1 | exact W2 |].
  destruct (evaluate_criterion_returns cfg a u d i total k c
              (with_stdin_delivered run) st Hsp Hok Hst s) as (r2 & s2 & E2).
  rewrite E2. simpl. f_equal.
  apply evaluate_criterion_Returned in E2 as (st2 & Hst2 & _ & ->).
  simpl in Hst2. assert (st2 = st) by congruence. subst st2. reflexivity.
Qed.

(** ** The scoped working directory *)

Lemma bind_cases {A B} (m : Eff number A) (k : A -> Eff number B) s o s' :
  bind m k s = (o, s') ->
  (exists a s1, m s = (Returned a, s1) /\ k a s1 = (o, s'))
  \/ (exists e, m s = (Thrown e, s') /\ o = Thrown e).
Proof.
  unfold bind. destruct (m s) as [[a|e] s1]; intros E.
  - left. eauto.
  - right. injection E as <- <-. eauto.
Qed.


#[local] Instance only_dir_preorder d : PreOrder (only_dir d).
Proof.
  split.
  - intros s. split; auto.
  - intros s1 s2 s3 [H12 K12] [H23 K23]. split.
    + intros d' Hd. rewrite H23, H12 by exact Hd. reflexivity.
    + auto.
Qed.

Lemma keeps_fs_only_dir d {A} (m : Eff number A) :
  respects (keeps fs) m -> respects (only_dir d) m.
Proof.
  intros Hm s o s' E. apply Hm in E. unfold keeps in E.
  split; rewrite E; auto.
Qed.

Lemma only_dir_open_createNew d name :
  respects (only_dir d) (open_createNew d name).
Proof.
  intros s o s' E. unfold open_createNew in E.
  destruct (fs s !! d) as [files|] eqn:Hd.
  - destruct (_ || _); injection E as <- <-; [reflexivity|].
    split; simpl.
    + intros d' Hne. apply lookup_insert_ne. congruence.
    + intros _. rewrite lookup_insert_eq. eauto.
  - injection E as <- <-. reflexivity.
Qed.

Lemma only_dir_file_write d name chunk :
  respects (only_dir d) (file_write d name chunk).
Proof.
  intros s o s' E. injection E as <- <-. split; simpl.
  - intros d' Hne. apply lookup_alter_ne. congruence.
  - intros [files Hf]. rewrite lookup_alter_eq, Hf. simpl. eauto.
Qed.

Ltac frame_only_dir :=
  repeat first [ typeclasses eauto
               | apply only_dir_open_createNew
               | apply only_dir_file_write
               | apply respects_for_each; [|intros ? ?]
               | apply respects_when
               | apply respects_ret
               | apply respects_lift
               | apply respects_throw
               | apply respects_bind; [| |intros ?]
               | (apply keeps_fs_only_dir; prim_keeps) ].

Lemma only_dir_download_attachment (cfg : Config number) w i d j att :
  respects (only_dir d) (download_attachment cfg w i d j att).
Proof.
  unfold download_attachment.
  destruct (contains_slash (display_name att)); [frame_only_dir|].
  apply respects_bind; [typeclasses eauto | frame_only_dir | intros _].
  apply respects_bind; [typeclasses eauto | frame_only_dir | intros response].
  destruct (negb _); [frame_only_dir|].
  destruct (body response) as [b|]; [|frame_only_dir].
  destruct (body_error b); frame_only_dir.
Qed.

Lemma only_dir_in_workspace (cfg : Config number) w a course i u d :
  respects (only_dir d)
           (in_workspace utf8_encode utf8_decode cfg w a course i u d).
Proof.
  unfold in_workspace.
  apply respects_bind; [typeclasses eauto | frame_only_dir | intros _].
  apply respects_bind; [typeclasses eauto | frame_only_dir | intros atts].
  apply respects_bind; [typeclasses eauto | | intros _].
  - apply respects_for_each; [typeclasses eauto|].
    intros j att. apply only_dir_download_attachment.
  - apply respects_criteria_loop; [typeclasses eauto|..];
      intros; apply keeps_fs_only_dir; prim_keeps.
Qed.

Lemma cleanup_removes (cfg : Config number) d (s : State) :
  is_Some (fs s !! d) ->
  exists s', cleanup cfg d s = (Returned tt, s')
             /\ fs s' = delete d (fs s).
Proof.
  intros [files Hd]. unfold cleanup, remove_recursive.
  destruct (verbose cfg); simpl; unfold bind; simpl; rewrite Hd;
    eexists; split; reflexivity.
Qed.

(** The [try]/[finally] around the workspace: whatever the body does, the
    directory is gone afterwards and the outcome is the body's. *)
Lemma scoped_workspace (cfg : Config number) w a course i u d (s : State) r s' :
  is_Some (fs s !! d) ->
  try_finally (in_workspace utf8_encode utf8_decode cfg w a course i u d)
              (cleanup cfg d) s = (r, s') ->
  fs s' = delete d (fs s)
  /\ exists sb, in_workspace utf8_encode utf8_decode cfg w a course i u d s
                = (r, sb).
Proof.
  intros Hd E. unfold try_finally in E.
  destruct (in_workspace _ _ _ _ _ _ _ _ _ s) as [r1 sb] eqn:Eb.
  destruct (only_dir_in_workspace _ _ _ _ _ _ _ _ _ _ Eb) as [Hother Hkeep].
  destruct (cleanup_removes cfg d sb (Hkeep Hd)) as (s2 & Ec & Hfs).
  rewrite Ec in E. injection E as <- <-. split; [|eauto].
  rewrite Hfs. apply map_eq. intros d'.
  destruct (decide (d' = d)) as [->|Hne].
  - rewrite !lookup_delete_eq. reflexivity.
  - rewrite !lookup_delete_ne by congruence. apply Hother, Hne.
Qed.

Lemma makeTempDir_cases w i (s : State) o s1 :
  makeTempDir w i s = (o, s1) ->
  (exists e, makeTempDir_error w i = Some e /\ o = Thrown e /\ s1 = s)
  \/ (makeTempDir_error w i = None
      /\ o = Returned (fresh (dom (fs s)))
      /\ fs s !! fresh (dom (fs s)) = None
      /\ fs s1 = <[fresh (dom (fs s)) := []]> (fs s)).
Proof.
  unfold makeTempDir. destruct (makeTempDir_error w i) as [e|]; intros E;
    injection E as <- <-.
  - left. eauto.
  - right. repeat split. apply not_elem_of_dom, is_fresh.
Qed.

(** One turn of the submission loop leaves the file system as it found it. *)
Lemma evaluate_submission_fs (cfg : Config number) w a course i sub acc
    (s : State) o s' :
  evaluate_submission utf8_encode utf8_decode cfg w a course i sub acc s
    = (o, s') ->
  fs s' = fs s.
Proof.
  unfold evaluate_submission. cbv zeta.
  destruct (excluded cfg (user_node_id (user sub))); intros E.
  - assert (Hk : respects (keeps fs)
                   (bind (when (verbose cfg)
                            (console_log
                               (LogSkipping (S i) (length (submissions a))
                                  (submission_id sub) (user_name (user sub)))))
                         (fun _ => @ret number _ acc)))
      by frame_keeps.
    apply (Hk _ _ _ E).
  - run_step E.
    apply bind_cases in E as [(d & s1 & Em & E)|(e & Em & ->)];
      apply makeTempDir_cases in Em
        as [(e' & He & Ho & Hs)|(He & Ho & Hfresh & Hfs)];
      try discriminate; try (subst; reflexivity).
    injection Ho as ->. simpl in Hfresh, Hfs.
    apply bind_cases in E as [(aod & s2 & Et & E)|(e & Et & ->)];
      apply scoped_workspace in Et as [Ht _];
      try (rewrite Hfs, lookup_insert_eq; eauto);
      rewrite Hfs, delete_insert_id in Ht by exact Hfresh.
    + assert (Hk : respects (keeps fs)
                     (bind (when (verbose cfg) (console_log (LogAssessment aod)))
                           (fun _ => @ret number _ (acc ++ [aod]))))
        by frame_keeps.
      rewrite (Hk _ _ _ E). exact Ht.
    + exact Ht.
Qed.


Lemma throws_bind {A B} (m : Eff number A) (k : A -> Eff number B) :
  throws m -> throws (bind m k).
Proof.
  intros Hm s. destruct (Hm s) as (e & s' & E).
  exists e, s'. apply bind_throws, E.
Qed.

Lemma throws_after {A B} (m : Eff number A) (k : A -> Eff number B) :
  (forall a, throws (k a)) -> throws (bind m k).
Proof.
  intros Hk s. unfold bind. destruct (m s) as [[a|e] s1]; [apply Hk | eauto].
Qed.

Lemma throws_throw {A} e : throws (@throw number A e).
Proof. intros s. eexists _, _. reflexivity. Qed.

Lemma for_each_throws {A} (f : nat -> A -> Eff number unit) l : forall j j0 x,
  l !! j = Some x -> throws (f (j0 + j) x) -> throws (for_each f j0 l).
Proof.
  induction l as [|y l IH]; intros j j0 x Hl Hf; [discriminate|].
  destruct j as [|j]; simpl in *.
  - injection Hl as ->. rewrite Nat.add_0_r in Hf. apply throws_bind, Hf.
  - apply throws_after. intros _. apply (IH j (S j0) x Hl).
    rewrite Nat.add_succ_comm. exact Hf.
Qed.

Lemma download_attachment_throws (cfg : Config number) w i d j att resp :
  attachment_response w i j = Returned resp ->
  status resp <> 200%Z \/ body resp = None ->
  throws (download_attachment cfg w i d j att).
Proof.
  intros Hr Hbad. unfold download_attachment.
  destruct (contains_slash (display_name att)); [apply throws_throw|].
  apply throws_after. intros _. rewrite Hr.
  intros s. unfold bind, lift.
  destruct (Z.eqb_spec (status resp) 200) as [E200|N200]; simpl.
  - destruct Hbad as [Hs|Hb]; [contradiction|]. rewrite Hb.
    eexists _, _. reflexivity.
  - eexists _, _. reflexivity.
Qed.

Lemma in_workspace_throws (cfg : Config number) w a course i u d atts j att resp :
  submission_rest w i = Returned atts ->
  atts !! j = Some att ->
  attachment_response w i j = Returned resp ->
  status resp <> 200%Z \/ body resp = None ->
  throws (in_workspace utf8_encode utf8_decode cfg w a course i u d).
Proof.
  intros Hrest Hatt Hresp Hbad. unfold in_workspace.
  apply throws_after. intros _. rewrite Hrest.
  intros s. unfold bind at 1. simpl. revert s.
  apply throws_bind. apply (for_each_throws _ atts j 0 att Hatt).
  eapply download_attachment_throws; eassumption.
Qed.

Lemma criteria_loop_user_id (cfg : Config number) w a u d i total cs :
  forall k aod (s : State) aod' s',
    criteria_loop utf8_encode utf8_decode cfg w a u d i total k cs aod s
      = (Returned aod', s') ->
    user_id aod' = user_id aod.
Proof.
  induction cs as [|c cs IH]; intros k aod s aod' s' E; simpl in E.
  - injection E as <- _. reflexivity.
  - apply bind_Returned in E as (r & s1 & _ & E).
    apply IH in E. exact E.
Qed.

Lemma in_workspace_user_id (cfg : Config number) w a course i u d
    (s : State) aod s' :
  in_workspace utf8_encode utf8_decode cfg w a course i u d s
    = (Returned aod, s') ->
  user_id aod = user_node_id u.
Proof.
  unfold in_workspace. intros E.
  repeat (apply bind_Returned in E as (? & ? & _ & E)).
  apply criteria_loop_user_id in E. exact E.
Qed.

Lemma evaluate_submission_Returned (cfg : Config number) w a course i sub acc
    (s : State) acc' s' :
  evaluate_submission utf8_encode utf8_decode cfg w a course i sub acc s
    = (Returned acc', s') ->
  if excluded cfg (user_node_id (user sub)) then acc' = acc
  else exists aod, acc' = acc ++ [aod]
                   /\ user_id aod = user_node_id (user sub).
Proof.
  unfold evaluate_submission. cbv zeta.
  destruct (excluded cfg (user_node_id (user sub))); intros E.
  - apply bind_Returned in E as (? & ? & _ & E). injection E as <- _.
    reflexivity.
  - run_step E.
    apply bind_Returned in E as (d & s1 & Em & E).
    apply makeTempDir_cases in Em
      as [(e' & _ & Ho & _)|(_ & Ho & _ & Hfs)]; [discriminate|].
    injection Ho as ->.
    apply bind_Returned in E as (aod & s2 & Et & E).
    apply scoped_workspace in Et as [_ (sb & Eb)];
      [|rewrite Hfs, lookup_insert_eq; eauto].
    apply bind_Returned in E as (? & ? & _ & E). injection E as <- _.
    exists aod. split; [reflexivity|].
    apply (in_workspace_user_id _ _ _ _ _ _ _ _ _ _ Eb).
Qed.

Lemma submission_loop_users (cfg : Config number) w a course subs :
  forall i acc (s : State) l s',
    submission_loop utf8_encode utf8_decode cfg w a course i subs acc s
      = (Returned l, s') ->
    map user_id l
    = map user_id acc
        ++ map (fun sub => user_node_id (user sub))
               (List.filter
                  (fun sub => negb (excluded cfg (user_node_id (user sub))))
                  subs).
Proof.
  induction subs as [|sub subs IH]; intros i acc s l s' E; simpl in E.
  - injection E as <- _. simpl. rewrite app_nil_r. reflexivity.
  - apply bind_Returned in E as (acc' & s1 & E1 & E).
    apply IH in E. rewrite E. apply evaluate_submission_Returned in E1.
    simpl. destruct (excluded cfg (user_node_id (user sub))); simpl.
    + subst acc'. reflexivity.
    + destruct E1 as (aod & -> & Hu). rewrite map_app, <- app_assoc.
      simpl. rewrite Hu. reflexivity.
Qed.

(** ** The upload pipeline *)

Abbreviation log_console := (@log_console number).

Lemma log_console_app evs1 evs2 (s : State) :
  log_console evs2 (log_console evs1 s) = log_console (evs1 ++ evs2) s.
Proof. unfold log_console. simpl. rewrite app_assoc. reflexivity. Qed.

Lemma log_console_nil (s : State) : log_console [] s = s.
Proof. destruct s. unfold log_console. simpl. rewrite app_nil_r. reflexivity. Qed.

Lemma console_log_run l (s : State) :
  console_log l s = (Returned tt, log_console [ConsoleLog l] s).
Proof. reflexivity. Qed.

Lemma stdout_write_run b (s : State) :
  stdout_write b s = (Returned tt, log_console [StdoutWrite b] s).
Proof. reflexivity. Qed.

Lemma filter_records_run (cfg : Config number) l : forall s : State,
  filter_records cfg l s
  = (Returned (List.filter (keep_record cfg) l),
     log_console
       (map (fun a => ConsoleLog (LogText (js "Filtered out user " ++ user_id a)))
            (List.filter (fun a => excluded cfg (user_id a)) l)) s).
Proof.
  induction l as [|a l IH]; intros s; cbn [filter_records List.filter map].
  - rewrite log_console_nil. reflexivity.
  - unfold keep_record at 1. destruct (excluded cfg (user_id a));
      cbn [negb map].
    + rewrite (bind_run _ _ _ _ _ (console_log_run _ _)).
      rewrite IH, log_console_app. reflexivity.
    + rewrite (bind_run _ _ _ _ _ (IH s)). reflexivity.
Qed.

Lemma for_each_marks {A} b (l : list A) : forall j (s : State),
  for_each (fun _ _ => stdout_write b) j l s
  = (Returned tt, log_console (map (fun _ => StdoutWrite b) l) s).
Proof.
  induction l as [|x l IH]; intros j s; cbn [for_each map].
  - rewrite log_console_nil. reflexivity.
  - rewrite (bind_run _ _ _ _ _ (stdout_write_run _ _)).
    rewrite IH, log_console_app. reflexivity.
Qed.

Lemma dry_run_points_total (a : AssessmentOutputData number) :
  dry_run_points a = Returned (total_points a).
Proof.
  unfold dry_run_points, total_points, object_values. simpl.
  rewrite map_map. reflexivity.
Qed.

Lemma upload_record_dry (cfg : Config number) w course association k a acc
    (s : State) :
  dryRun cfg = true ->
  upload_record utf8_encode cfg w course association k a acc s
  = (Returned (fst acc ++ [{| errors := None |}], snd acc),
     log_console (dry_run_events cfg association a) s).
Proof.
  intros Hdry. unfold upload_record, dry_run_events.
  rewrite Hdry, dry_run_points_total.
  destruct (verbose cfg); unfold bind; simpl; unfold log_console; simpl;
    rewrite <- ?app_assoc; reflexivity.
Qed.

Lemma upload_loop_dry (cfg : Config number) w course association l :
  dryRun cfg = true ->
  forall k acc (s : State),
    upload_loop utf8_encode cfg w course association k l acc s
    = (Returned (fst acc ++ map (fun _ => {| errors := None |}) l, snd acc),
       log_console (flat_map (dry_run_events cfg association) l) s).
Proof.
  intros Hdry. induction l as [|a l IH]; intros k acc s; simpl.
  - rewrite log_console_nil, app_nil_r. destruct acc. reflexivity.
  - unfold bind. rewrite upload_record_dry by exact Hdry.
    rewrite IH, log_console_app. simpl. rewrite <- app_assoc. reflexivity.
Qed.

Lemma upload_record_keeps_heap (cfg : Config number) w course association k a acc :
  respects (keeps heap)
           (upload_record utf8_encode cfg w course association k a acc).
Proof.
  unfold upload_record.
  apply respects_bind; [typeclasses eauto | frame_keeps | intros _].
  apply respects_bind; [typeclasses eauto | | intros result].
  - destruct (dryRun cfg); frame_keeps.
  - destruct (errors result); frame_keeps.
Qed.

Lemma upload_loop_keeps_heap (cfg : Config number) w course association l :
  forall k acc,
    respects (keeps heap)
             (upload_loop utf8_encode cfg w course association k l acc).
Proof.
  induction l as [|a l IH]; intros k acc; simpl.
  - apply respects_ret. typeclasses eauto.
  - apply respects_bind; [typeclasses eauto | | intros ?; apply IH].
    apply upload_record_keeps_heap.
Qed.

(** [upload] reassigns the list of the object it was given, and nothing
    else on the heap, whatever happens afterwards. *)
Lemma upload_heap (cfg : Config number) w ref (s : State) d o s' :
  heap s !! ref = Some d ->
  upload utf8_encode cfg w ref s = (o, s') ->
  heap s'
  = alter (with_list (List.filter (keep_record cfg) (assessmentOutputDataList d)))
          ref (heap s).
Proof.
  intros Hd E. unfold upload in E.
  eapply bind_run_in in E; [|unfold deref; rewrite Hd; reflexivity].
  eapply bind_run_in in E; [|apply filter_records_run].
  run_step E.
  match type of E with
  | ?f ?s1 = _ => assert (Hk : respects (keeps heap) f)
  end.
  { repeat first [ apply upload_loop_keeps_heap
                 | apply respects_for_each; [typeclasses eauto | intros ? ?]
                 | apply respects_bind; [typeclasses eauto | | intros ?]
                 | apply respects_when; [typeclasses eauto|]
                 | apply respects_ret; typeclasses eauto
                 | prim_keeps ]. }
  apply Hk in E. unfold keeps in E. rewrite E. reflexivity.
Qed.

(** ** The user filter *)

Lemma jsstring_eqb_eq a b : jsstring_eqb a b = true <-> a = b.
Proof. unfold jsstring_eqb. apply bool_decide_eq_true. Qed.

Lemma excluded_spec (cfg : Config number) id :
  excluded cfg id = true
  <-> (exists us, users cfg = Some us /\ ~ In id (map num_toString us))
      \/ In id (map num_toString (exceptUsers cfg)).
Proof.
  unfold excluded. rewrite orb_true_iff.
  assert (HA : match users cfg with
               | Some us =>
                   forallb (fun u => negb (jsstring_eqb (num_toString u) id)) us
               | None => false
               end = true
               <-> exists us, users cfg = Some us
                              /\ ~ In id (map num_toString us)).
  { destruct (users cfg) as [us|].
    - rewrite forallb_forall. split.
      + intros Hall. exists us. split; [reflexivity|].
        intros Hin. apply in_map_iff in Hin as (u & <- & Hu).
        specialize (Hall u Hu). apply negb_true_iff in Hall.
        assert (jsstring_eqb (num_toString u) (num_toString u) = true)
          by (apply jsstring_eqb_eq; reflexivity).
        congruence.
      + intros (us' & [= <-] & Hn) u Hu. apply negb_true_iff.
        destruct (jsstring_eqb (num_toString u) id) eqn:E; [|reflexivity].
        apply jsstring_eqb_eq in E. exfalso. apply Hn.
        apply in_map_iff. eauto.
    - split; [discriminate|]. intros (us & Hus & _). discriminate. }
  assert (HB : existsb (fun u => jsstring_eqb (num_toString u) id)
                       (exceptUsers cfg) = true
               <-> In id (map num_toString (exceptUsers cfg))).
  { rewrite existsb_exists. split.
    - intros (u & Hu & E). apply jsstring_eqb_eq in E.
      apply in_map_iff. eauto.
    - intros Hin. apply in_map_iff in Hin as (u & <- & Hu).
      exists u. split; [exact Hu|]. apply jsstring_eqb_eq. reflexivity. }
  rewrite HA, HB. reflexivity.
Qed.

Lemma evaluate_submission_skips (cfg : Config number) w a course i sub acc
    (s : State) :
  excluded cfg (user_node_id (user sub)) = true ->
  exists s',
    evaluate_submission utf8_encode utf8_decode cfg w a course i sub acc s
      = (Returned acc, s')
    /\ fs s' = fs s /\ network s' = network s /\ processes s' = processes s.
Proof.
  intros Hex. unfold evaluate_submission. cbv zeta. rewrite Hex.
  destruct (verbose cfg); eexists; (split; [reflexivity|]); auto.
Qed.

(** ** Claims about the orchestrator and the upload *)

(** C2 (amended). When the download of an attachment fails (a status other
    than 200, or a response without a body), the evaluation of that
    submission is aborted with no assessment record appended and its working
    directory is removed; the fault is not caught, so the submission loop
    ends with it in the very state the failed evaluation left: no later
    submission is attempted. *)
Theorem download_failure_aborts_the_run
    (cfg : Config number) w a course i sub rest acc (s : State)
    atts j att resp :
  excluded cfg (user_node_id (user sub)) = false ->
  makeTempDir_error w i = None ->
  submission_rest w i = Returned atts ->
  atts !! j = Some att ->
  attachment_response w i j = Returned resp ->
  status resp <> 200%Z \/ body resp = None ->
  exists e s',
    evaluate_submission utf8_encode utf8_decode cfg w a course i sub acc s
      = (Thrown e, s')
    /\ fs s' = fs s
    /\ submission_loop utf8_encode utf8_decode cfg w a course i (sub :: rest)
         acc s = (Thrown e, s').
Proof.
  intros Hex Htmp Hrest Hatt Hresp Hbad.
  destruct (evaluate_submission utf8_encode utf8_decode cfg w a course i sub
              acc s) as [o s'] eqn:E.
  assert (Hfs := evaluate_submission_fs _ _ _ _ _ _ _ _ _ _ E).
  assert (Ho : exists e, o = Thrown e).
  { unfold evaluate_submission in E. cbv zeta in E. rewrite Hex in E.
    run_step E.
    apply bind_cases in E as [(d & s1 & Em & E)|(e & _ & ->)]; [|eauto].
    apply makeTempDir_cases in Em
      as [(e' & He & _)|(_ & Ho & _ & Hd)]; [congruence|].
    injection Ho as ->.
    apply bind_cases in E as [(aod & s2 & Et & E)|(e & _ & ->)]; [|eauto].
    apply scoped_workspace in Et as [_ (sb & Eb)];
      [|rewrite Hd, lookup_insert_eq; eauto].
    destruct (in_workspace_throws cfg w a course i (user sub)
                (fresh (dom (fs s))) atts j att resp Hrest Hatt Hresp Hbad s1)
      as (e & sb' & Eb').
    simpl in Eb. congruence. }
  destruct Ho as [e ->]. exists e, s'. repeat split; [exact Hfs|].
  simpl. apply bind_throws, E.
Qed.

(** C4. The working directory that [Deno.makeTempDir] creates for a
    submission does not exist once that submission's turn of the loop is
    over, whatever its outcome (a result or any fault); the file system is
    then exactly what it was before the turn. *)
Theorem working_directory_removed
    (cfg : Config number) w a course i sub acc (s : State) o s' d s1 :
  evaluate_submission utf8_encode utf8_decode cfg w a course i sub acc s
    = (o, s') ->
  makeTempDir w i s = (Returned d, s1) ->
  fs s1 !! d = Some [] /\ fs s' !! d = None /\ fs s' = fs s.
Proof.
  intros E Em. apply evaluate_submission_fs in E.
  apply makeTempDir_cases in Em
    as [(e' & _ & Ho & _)|(_ & Ho & Hfresh & Hd)]; [discriminate|].
  injection Ho as ->. rewrite E, Hd, lookup_insert_eq. auto.
Qed.

(** C5. A submission or record is skipped exactly when an allow-list is
    given and no entry of it prints as the user's id, or when an entry of
    the deny-list does; without an allow-list only the deny-list decides.
    A skipped submission leaves the dataset, the file system, the network
    and the processes untouched; the records of a completed evaluation are
    those of the submissions not skipped, in order; and [upload] keeps
    exactly the records not skipped. *)
Theorem filter_skips_exactly_the_excluded (cfg : Config number) :
  (forall id,
      excluded cfg id = true
      <-> (exists us, users cfg = Some us /\ ~ In id (map num_toString us))
          \/ In id (map num_toString (exceptUsers cfg)))
  /\ (users cfg = None ->
      forall id,
        excluded cfg id = true <-> In id (map num_toString (exceptUsers cfg)))
  /\ (forall w a course i sub acc (s : State),
         excluded cfg (user_node_id (user sub)) = true ->
         exists s',
           evaluate_submission utf8_encode utf8_decode cfg w a course i sub
             acc s = (Returned acc, s')
           /\ fs s' = fs s /\ network s' = network s
           /\ processes s' = processes s)
  /\ (forall w input (s : State) d s',
         evaluate utf8_encode utf8_decode cfg w input s = (Returned d, s') ->
         map user_id (assessmentOutputDataList d)
         = map (fun sub => user_node_id (user sub))
               (List.filter
                  (fun sub => negb (excluded cfg (user_node_id (user sub))))
                  (submissions (input_assignment input))))
  /\ (forall w ref (s : State) d o s',
         heap s !! ref = Some d ->
         upload utf8_encode cfg w ref s = (o, s') ->
         exists d',
           heap s' !! ref = Some d'
           /\ assessmentOutputDataList d'
              = List.filter (fun a => negb (excluded cfg (user_id a)))
                            (assessmentOutputDataList d)).
Proof.
  split; [|split; [|split; [|split]]].
  - apply excluded_spec.
  - intros Hnone id. rewrite excluded_spec. split; [|auto].
    intros [(us & Hus & _)|Hin]; [congruence | exact Hin].
  - intros. apply evaluate_submission_skips. assumption.
  - intros w input s d s' E. unfold evaluate in E. cbv zeta in E.
    apply bind_Returned in E as (l & s1 & El & E).
    apply bind_Returned in E as (? & ? & _ & E). injection E as <- _.
    simpl. apply submission_loop_users in El. exact El.
  - intros w ref s d o s' Hd E.
    rewrite (upload_heap _ _ _ _ _ _ _ Hd E), lookup_alter_eq, Hd. simpl.
    eexists. split; reflexivity.
Qed.

(** C9 (amended). A dry run of [upload] makes no network call and returns one
    empty result per kept record; on the console it shows the same header
    of marks as a real upload, then for every kept record, in order, the
    line with that record's total points and user, and the summary with no
    failure; the progress marks [#], [E] and the closing [|] of a real
    upload are not written. *)
Theorem dry_run_upload (cfg : Config number) w ref (s : State) d :
  dryRun cfg = true ->
  heap s !! ref = Some d ->
  exists s',
    upload utf8_encode cfg w ref s
    = (Returned (map (fun _ => {| errors := None |})
                     (List.filter (keep_record cfg) (assessmentOutputDataList d))),
       s')
    /\ network s' = network s
    /\ console s' = console s ++ dry_run_console utf8_encode cfg d.
Proof.
  intros Hdry Hd. unfold upload.
  erewrite bind_run by (unfold deref; rewrite Hd; reflexivity).
  erewrite bind_run by apply filter_records_run.
  erewrite bind_run by reflexivity.
  unfold dry_run_console. cbv zeta.
  destruct (verbose cfg); cbn [when];
    (erewrite bind_run by reflexivity);
    (erewrite bind_run by apply for_each_marks);
    (erewrite bind_run by reflexivity);
    (erewrite bind_run by reflexivity);
    (erewrite bind_run by (apply upload_loop_dry; exact Hdry));
    rewrite Hdry; cbn [negb when fst snd app];
    (erewrite bind_run by reflexivity);
    (erewrite bind_run by reflexivity);
    (erewrite bind_run by reflexivity);
    (erewrite bind_run by reflexivity);
    (erewrite bind_run by reflexivity);
    eexists; (split; [reflexivity|]); split; [reflexivity| |reflexivity|];
    simpl; rewrite <- ?app_assoc; simpl; rewrite ?length_map; reflexivity.
Qed.

(** C10. [upload] mutates the object it is given: when it is over, whatever
    its outcome, the list of that object holds exactly the records whose
    user the filter keeps, its other properties are as before, and no other
    object has changed. *)
Theorem upload_reassigns_the_list (cfg : Config number) w ref (s : State) d o s' :
  heap s !! ref = Some d ->
  upload utf8_encode cfg w ref s = (o, s') ->
  heap s' !! ref
  = Some (with_list
            (List.filter (fun a => negb (excluded cfg (user_id a)))
                         (assessmentOutputDataList d)) d)
  /\ (forall a, In a (assessmentOutputDataList d) ->
                excluded cfg (user_id a) = true ->
                forall d', heap s' !! ref = Some d' ->
                           ~ In a (assessmentOutputDataList d'))
  /\ (forall other, other <> ref -> heap s' !! other = heap s !! other).
Proof.
  intros Hd E. rewrite (upload_heap _ _ _ _ _ _ _ Hd E).
  split; [|split].
  - rewrite lookup_alter_eq, Hd. reflexivity.
  - intros a _ Hex d'. rewrite lookup_alter_eq, Hd. intros [= <-]. simpl.
    intros Hin. apply filter_In in Hin as [_ Hk].
    unfold keep_record in Hk. rewrite Hex in Hk. discriminate.
  - intros other Hne. apply lookup_alter_ne. congruence.
Qed.

(** The call sites pass a fresh copy made by the spread, so the object the
    caller holds keeps its list. *)
Lemma upload_copy_spares_the_original
    (cfg : Config number) w ref association (s : State) d o s' :
  heap s !! ref = Some d ->
  upload_copy utf8_encode cfg w ref association s = (o, s') ->
  heap s' !! ref = Some d.
Proof.
  intros Hd E. unfold upload_copy in E.
  eapply bind_run_in in E; [|unfold deref; rewrite Hd; reflexivity].
  run_step E.
  assert (Hne : fresh (dom (heap s)) <> ref).
  { intros Heq. apply (is_fresh (dom (heap s))). rewrite Heq.
    apply elem_of_dom. eauto. }
  eapply upload_heap in E; [|simpl; apply lookup_insert_eq].
  rewrite E. simpl.
  rewrite lookup_alter_ne, lookup_insert_ne by congruence. exact Hd.
Qed.

(** * Further properties *)

(** ** The chain of console writes *)

Abbreviation shown_chunk := (@shown_chunk number utf8_decode utf8_encode).

Lemma all_chunks_app l1 l2 : all_chunks (l1 ++ l2) = all_chunks l1 ++ all_chunks l2.
Proof. apply flat_map_app. Qed.

Lemma run_task_state t w (s : State) w' s' :
  run_task utf8_encode utf8_decode t w s = (Returned w', s') ->
  w' = next_write_state t w.
Proof.
  destruct t; simpl; intros E;
    repeat (apply bind_Returned in E as (? & ? & _ & E));
    injection E as <- _; reflexivity.
Qed.

Lemma flush_all_state ts : forall w (s : State) w' s',
  flush_all utf8_encode utf8_decode ts w s = (Returned w', s') ->
  w' = final_write_state ts w.
Proof.
  induction ts as [|t ts IH]; intros w s w' s' E; simpl in E.
  - injection E as <- _. reflexivity.
  - apply bind_Returned in E as (w1 & s1 & Et & E).
    apply run_task_state in Et as ->. apply (IH _ _ _ _ E).
Qed.

Lemma final_write_state_app ts1 ts2 w :
  final_write_state (ts1 ++ ts2) w
  = final_write_state ts2 (final_write_state ts1 w).
Proof. apply fold_left_app. Qed.

(** Flushing some links early does not change what the chain resolves to. *)
Lemma handle_events_state (cfg : Config number) evs : forall m (s : State) m' s',
  handle_events utf8_encode utf8_decode cfg evs m s = (Returned m', s') ->
  final_write_state (pending m') (written m')
  = final_write_state (pending m ++ map TaskWrite (all_chunks evs)) (written m).
Proof.
  induction evs as [|ev evs IH]; intros m s m' s' E; simpl in E.
  - injection E as <- _. simpl. rewrite app_nil_r. reflexivity.
  - apply bind_Returned in E as (m1 & s1 & E1 & E).
    rewrite (IH _ _ _ _ E). clear IH E.
    change (ev :: evs) with ([ev] ++ evs).
    rewrite all_chunks_app, map_app, app_assoc.
    rewrite !(final_write_state_app _ (map TaskWrite (all_chunks evs))).
    f_equal. destruct ev; simpl in E1.
    + apply bind_Returned in E1 as (? & ? & _ & E1). injection E1 as <- _.
      reflexivity.
    + apply bind_Returned in E1 as (? & ? & _ & E1). injection E1 as <- _.
      reflexivity.
    + simpl. rewrite app_nil_r. destruct (pending m) as [|t ts] eqn:Hp.
      * injection E1 as <- _. rewrite Hp. reflexivity.
      * apply bind_Returned in E1 as (w1 & s2 & Et & E1).
        injection E1 as <- _. apply run_task_state in Et as ->. reflexivity.
    + discriminate.
Qed.

Lemma drain_flush_state (cfg : Config number) run (s : State) w' s' :
  bind (drain utf8_encode utf8_decode cfg run)
       (fun m => flush_all utf8_encode utf8_decode (pending m) (written m)) s
  = (Returned w', s') ->
  w' = final_write_state (tasks_pushed run) (written new_mux).
Proof.
  intros E. apply bind_Returned in E as (m & s1 & Ed & E).
  apply flush_all_state in E as ->. unfold drain in Ed.
  apply bind_Returned in Ed as (m1 & s2 & E1 & E2).
  apply handle_events_state in E1, E2. simpl in E1. rewrite E2.
  unfold tasks_pushed.
  destruct (stdin_outcome run); simpl; rewrite <- ?app_assoc;
    rewrite (final_write_state_app (pending m1)), E1;
    rewrite <- final_write_state_app; reflexivity.
Qed.

Lemma bytesWritten_final ts : forall w,
  bytesWritten (final_write_state ts w)
  = bytesWritten w
    + length (concat (flat_map (fun t => match t with
                                          | TaskWrite buf => [buf]
                                          | TaskStdinFailed _ => []
                                          end) ts)).
Proof.
  induction ts as [|t ts IH]; intros w; simpl; [lia|].
  unfold final_write_state in IH. rewrite IH.
  destruct t; simpl; rewrite ?length_app; lia.
Qed.

Lemma flat_map_TaskWrite chunks :
  flat_map (fun t => match t with
                     | TaskWrite buf => [buf]
                     | TaskStdinFailed _ => []
                     end) (map TaskWrite chunks) = chunks.
Proof. induction chunks as [|b l IH]; simpl; [|rewrite IH]; reflexivity. Qed.

Lemma clean_final_writes chunks : forall w,
  clean (final_write_state (map TaskWrite chunks) w)
  = match last (concat chunks) with
    | Some b => Byte.eqb b x0a
    | None => clean w
    end.
Proof.
  induction chunks as [|buf chunks IH] using rev_ind; intros w; [reflexivity|].
  rewrite map_app, final_write_state_app, concat_app. simpl.
  rewrite app_nil_r. destruct buf as [|b buf] using rev_ind.
  - simpl. rewrite app_nil_r. apply IH.
  - rewrite app_assoc, !last_snoc. reflexivity.
Qed.

Lemma bind_assoc {A B C} (m : Eff number A) (k : A -> Eff number B)
    (h : B -> Eff number C) s :
  bind (bind m k) h s = bind m (fun a => bind (k a) h) s.
Proof. unfold bind. destruct (m s) as [[a|e] s1]; reflexivity. Qed.

Lemma bind_ext {A B} (m : Eff number A) (k1 k2 : A -> Eff number B) s :
  (forall a s1, k1 a s1 = k2 a s1) -> bind m k1 s = bind m k2 s.
Proof. intros Hk. unfold bind. destruct (m s) as [[a|e] s1]; auto. Qed.

Lemma drain_then_flush (cfg : Config number) run (s : State) :
  verbose cfg = false ->
  no_read_rejects (schedule run) = true ->
  bind (drain utf8_encode utf8_decode cfg run)
       (fun m => flush_all utf8_encode utf8_decode (pending m) (written m)) s
  = flush_all utf8_encode utf8_decode (tasks_pushed run) (written new_mux) s.
Proof.
  intros Hv Hok.
  assert (Hev : forall evs, no_read_rejects evs = true ->
            forall m (s : State) ts,
              bind (handle_events utf8_encode utf8_decode cfg evs m)
                   (fun m' => flush_all utf8_encode utf8_decode
                                (pending m' ++ ts) (written m')) s
              = flush_all utf8_encode utf8_decode
                  (pending m ++ map TaskWrite (all_chunks evs) ++ ts)
                  (written m) s).
  { induction evs as [|ev evs IH]; intros Hevs m s0 ts.
    - reflexivity.
    - simpl in Hevs. apply andb_true_iff in Hevs as [Hev Hevs].
      cbn [handle_events]. rewrite bind_assoc.
      destruct ev; try discriminate.
      + erewrite bind_run by (simpl; rewrite Hv; reflexivity).
        rewrite (IH Hevs). simpl. rewrite <- !app_assoc. reflexivity.
      + erewrite bind_run by (simpl; rewrite Hv; reflexivity).
        rewrite (IH Hevs). simpl. rewrite <- !app_assoc. reflexivity.
      + destruct (pending m) as [|t rest] eqn:Hp.
        * erewrite bind_run by (simpl; rewrite Hp; reflexivity).
          rewrite (IH Hevs), Hp. reflexivity.
        * destruct (returns_run_task t (written m) s0) as (w1 & s1 & Et).
          erewrite bind_run
            by (simpl; rewrite Hp, (bind_run _ _ _ _ _ Et); reflexivity).
          rewrite (IH Hevs). simpl.
          rewrite (bind_run _ _ _ _ _ Et). reflexivity. }
  rewrite <- (take_drop (stdin_settles_after run) (schedule run)) in Hok.
  rewrite no_read_rejects_app in Hok. apply andb_true_iff in Hok as [H1 H2].
  unfold drain, tasks_pushed. rewrite bind_assoc.
  set (TS := match stdin_error (stdin_outcome run) with
             | Some e => [TaskStdinFailed e]
             | None => []
             end
             ++ map TaskWrite
                  (all_chunks (drop (stdin_settles_after run) (schedule run)))).
  transitivity
    (bind (handle_events utf8_encode utf8_decode cfg
             (take (stdin_settles_after run) (schedule run)) new_mux)
          (fun m' => flush_all utf8_encode utf8_decode (pending m' ++ TS)
                       (written m')) s);
    [|exact (Hev _ H1 new_mux s TS)].
  apply bind_ext. intros m1 s1.
  rewrite (bind_ext _ _
             (fun m => flush_all utf8_encode utf8_decode (pending m ++ [])
                         (written m)))
    by (intros; rewrite app_nil_r; reflexivity).
  rewrite (Hev _ H2), app_nil_r. unfold TS.
  destruct (stdin_outcome run); simpl; rewrite <- ?app_assoc; reflexivity.
Qed.

(** X1. With the progress messages off, flushing links of the chain while
    the child still runs gives the same console, the same state and the same
    final value as running all the links in the order they were chained at
    the end: no chunk is lost, shown twice or shown out of order. *)
Theorem flush_timing_is_irrelevant (cfg : Config number) run (s : State) :
  verbose cfg = false ->
  no_read_rejects (schedule run) = true ->
  bind (drain utf8_encode utf8_decode cfg run)
       (fun m => flush_all utf8_encode utf8_decode (pending m) (written m)) s
  = flush_all utf8_encode utf8_decode (tasks_pushed run) (written new_mux) s.
Proof.
  exact (drain_then_flush cfg run s).
Qed.

Lemma flush_all_writes chunks : forall w (s : State),
  flush_all utf8_encode utf8_decode (map TaskWrite chunks) w s
  = (Returned (final_write_state (map TaskWrite chunks) w),
     log_console (map shown_chunk chunks) s).
Proof.
  induction chunks as [|buf chunks IH]; intros w s; simpl.
  - rewrite log_console_nil. reflexivity.
  - erewrite bind_run by reflexivity. rewrite IH.
    change {| fs := fs s; console := console s ++ [?ev];
              network := network s; processes := processes s;
              heap := heap s |}
      with (log_console [ev] s).
    rewrite log_console_app. reflexivity.
Qed.

Lemma tasks_pushed_delivered run :
  stdin_outcome run = StdinDelivered ->
  tasks_pushed run = map TaskWrite (all_chunks (schedule run)).
Proof.
  intros Hin. unfold tasks_pushed. rewrite Hin. simpl.
  rewrite <- map_app, <- all_chunks_app, take_drop. reflexivity.
Qed.

(** X2. The console of one criterion, progress messages off, input
    delivered: the banner, the pad, then every chunk of either stream
    exactly once in arrival order (each with the pad after its newlines),
    then one byte, CR or LF; nothing else of the state changes but the
    process table. *)
Theorem criterion_console (cfg : Config number) a u d i total k c run st
    (s : State) :
  verbose cfg = false ->
  spawn_error run = None ->
  stdin_outcome run = StdinDelivered ->
  no_read_rejects (schedule run) = true ->
  exit_status run = Returned st ->
  exists s',
    evaluate_criterion utf8_encode utf8_decode cfg a u d i total k c run s
    = (Returned (criterion_result utf8_decode c run st), s')
    /\ console s'
       = console s
         ++ [ConsoleLog (LogTesting (S i) total (S k) (criteria_description c));
             StdoutWrite (utf8_encode writePad)]
         ++ map shown_chunk (all_chunks (schedule run))
         ++ [StdoutWrite
               [if match last (concat (all_chunks (schedule run))) with
                   | Some b => Byte.eqb b x0a
                   | None => true
                   end
                then x0d else x0a]]
    /\ fs s' = fs s /\ network s' = network s /\ heap s' = heap s.
Proof.
  intros Hv Hsp Hin Hok Hst.
  assert (Hflush := drain_then_flush cfg run).
  unfold evaluate_criterion. cbv zeta. rewrite Hv, Hsp, Hst. cbn [when].
  do 5 (erewrite bind_run by reflexivity).
  match goal with
  | |- context [bind (drain _ _ _ _) _ ?s1] =>
      destruct (returns_drain cfg run Hok s1) as (m & s2 & Ed);
      specialize (Hflush s1 Hv Hok)
  end.
  rewrite (bind_run _ _ _ _ _ Ed) in Hflush.
  rewrite (bind_run _ _ _ _ _ Ed).
  rewrite (tasks_pushed_delivered _ Hin), flush_all_writes in Hflush.
  rewrite (bind_run _ _ _ _ _ Hflush).
  do 4 (erewrite bind_run by reflexivity).
  eexists. split.
  - unfold ret. f_equal. f_equal. unfold criterion_result.
    rewrite (drain_output _ _ _ _ _ Ed). reflexivity.
  - simpl. rewrite clean_final_writes, <- !app_assoc. auto.
Qed.

(** X3. When the three blocks of a criterion have settled and the chain is
    flushed, the byte count it resolves to is the total length of the chunks
    read from both streams, and, the input having been delivered, its
    [clean] flag tells whether the last byte read was a newline (or nothing
    was read at all). *)
Theorem write_state_counts_the_chunks (cfg : Config number) run (s : State) w' s' :
  bind (drain utf8_encode utf8_decode cfg run)
       (fun m => flush_all utf8_encode utf8_decode (pending m) (written m)) s
  = (Returned w', s') ->
  bytesWritten w' = length (concat (all_chunks (schedule run)))
  /\ (stdin_outcome run = StdinDelivered ->
      clean w' = match last (concat (all_chunks (schedule run))) with
                 | Some b => Byte.eqb b x0a
                 | None => true
                 end).
Proof.
  intros E. apply drain_flush_state in E as ->. split.
  - rewrite bytesWritten_final. simpl. f_equal. f_equal.
    unfold tasks_pushed. rewrite !flat_map_app, !flat_map_TaskWrite.
    rewrite <- (take_drop (stdin_settles_after run) (schedule run)) at 3.
    rewrite all_chunks_app. f_equal.
    destruct (stdin_error (stdin_outcome run)); reflexivity.
  - intros Hin. rewrite (tasks_pushed_delivered _ Hin), clean_final_writes.
    reflexivity.
Qed.

Lemma writePad_spaces : writePad = repeat SPACE 11.
Proof. reflexivity. Qed.

(** X4. What is written to the console for a chunk is its text with the
    pad of eleven spaces put after every newline, and nothing else changed. *)
Theorem pad_newlines_pads_every_newline (text : jsstring) :
  pad_newlines text
  = flat_map (fun c => if (c =? LF)%N then LF :: repeat SPACE 11 else [c]) text.
Proof.
  unfold pad_newlines, replace_global. rewrite writePad_spaces.
  generalize (@None N). induction text as [|c text IH]; intros prev.
  - reflexivity.
  - cbn [replace_from flat_map]. unfold match_literal at 1.
    cbn [prefixb]. rewrite N.eqb_sym.
    destruct (c =? LF)%N; cbn [length firstn app]; rewrite IH; reflexivity.
Qed.

(** ** The assessment record *)

Abbreviation get_property := (@get_property number).
Abbreviation set_properties := (@set_properties number).

Lemma jsstring_eqb_refl a : jsstring_eqb a a = true.
Proof. apply jsstring_eqb_eq. reflexivity. Qed.

Lemma jsstring_eqb_neq a b : a <> b -> jsstring_eqb a b = false.
Proof.
  intros Hne. destruct (jsstring_eqb a b) eqn:E; [|reflexivity].
  apply jsstring_eqb_eq in E. contradiction.
Qed.

Lemma get_set_property_eq key (v : CriteriaOutputData number) fields :
  get_property key (set_property key v fields) = Some v.
Proof.
  induction fields as [|[k old] fields IH]; simpl.
  - rewrite jsstring_eqb_refl. reflexivity.
  - destruct (jsstring_eqb k key) eqn:E; simpl; rewrite E; auto.
Qed.

Lemma get_set_property_ne key key' (v : CriteriaOutputData number) fields :
  key' <> key ->
  get_property key' (set_property key v fields) = get_property key' fields.
Proof.
  intros Hne. induction fields as [|[k old] fields IH]; simpl.
  - rewrite jsstring_eqb_neq by congruence. reflexivity.
  - destruct (jsstring_eqb k key) eqn:E; simpl.
    + apply jsstring_eqb_eq in E as ->.
      rewrite jsstring_eqb_neq by congruence. reflexivity.
    + rewrite IH. reflexivity.
Qed.

Lemma set_property_keys_old key (v : CriteriaOutputData number) fields :
  In key (map fst fields) ->
  map fst (set_property key v fields) = map fst fields.
Proof.
  induction fields as [|[k old] fields IH]; simpl; [contradiction|].
  intros Hin. destruct (jsstring_eqb k key) eqn:E; simpl; [reflexivity|].
  f_equal. apply IH. destruct Hin as [->|Hin]; [|exact Hin].
  rewrite jsstring_eqb_refl in E. discriminate.
Qed.

Lemma set_property_new key (v : CriteriaOutputData number) fields :
  ~ In key (map fst fields) ->
  set_property key v fields = fields ++ [(key, v)].
Proof using Type.
  induction fields as [|[k old] fields IH]; simpl; [reflexivity|].
  intros Hn.
  rewrite jsstring_eqb_neq by (intros ->; apply Hn; left; reflexivity).
  f_equal. apply IH. intros Hin. apply Hn. right. exact Hin.
Qed.

(** X5. Assigning a property of the record: reading it back gives the new
    value, every other property reads as before, a property that was there
    keeps its place in the order of the keys, and a new one goes last. *)
Theorem set_property_laws key (v : CriteriaOutputData number) fields :
  get_property key (set_property key v fields) = Some v
  /\ (forall key', key' <> key ->
        get_property key' (set_property key v fields) = get_property key' fields)
  /\ (In key (map fst fields) ->
      map fst (set_property key v fields) = map fst fields)
  /\ (~ In key (map fst fields) ->
      set_property key v fields = fields ++ [(key, v)]).
Proof using Type.
  split; [apply get_set_property_eq|].
  split; [intros; apply get_set_property_ne; assumption|].
  split; [apply set_property_keys_old | apply set_property_new].
Qed.

Lemma set_properties_fresh rs :
  forall fields : list (jsstring * CriteriaOutputData number),
    List.NoDup (map fst fields ++ map fst rs) ->
    set_properties rs fields = fields ++ rs.
Proof using Type.
  induction rs as [|[k v] rs IH]; intros fields Hnd.
  - rewrite app_nil_r. reflexivity.
  - unfold set_properties in *. cbn [fold_left fst snd].
    simpl in Hnd. rewrite set_property_new.
    + rewrite IH, <- app_assoc; [reflexivity|].
      rewrite map_app, <- app_assoc. exact Hnd.
    + apply NoDup_remove_2 in Hnd.
      intros Hin. apply Hnd. apply in_or_app. left. exact Hin.
Qed.

Lemma get_set_properties_other key rs :
  forall fields : list (jsstring * CriteriaOutputData number),
    ~ In key (map fst rs) ->
    get_property key (set_properties rs fields) = get_property key fields.
Proof using Type.
  induction rs as [|[k v] rs IH]; intros fields Hn; [reflexivity|].
  unfold set_properties in *. simpl in *.
  rewrite IH by (intros Hin; apply Hn; right; exact Hin).
  apply get_set_property_ne. intros ->. apply Hn. left. reflexivity.
Qed.

Lemma get_set_properties_last key (v : CriteriaOutputData number) rs1 rs2 fields :
  ~ In key (map fst rs2) ->
  get_property key (set_properties (rs1 ++ (key, v) :: rs2) fields) = Some v.
Proof using Type.
  intros Hn. unfold set_properties. rewrite fold_left_app. cbn [fold_left fst snd].
  etransitivity; [apply (get_set_properties_other key rs2 _ Hn)|].
  apply get_set_property_eq.
Qed.

Lemma criterion_key_inj (c c' : CriteriaData number) :
  criterion_key c = criterion_key c' -> criteria_id c = criteria_id c'.
Proof. unfold criterion_key. apply app_inv_head. Qed.

Lemma NoDup_criterion_keys (cs : list (CriteriaData number)) :
  List.NoDup (map criteria_id cs) -> List.NoDup (map criterion_key cs).
Proof.
  induction cs as [|c cs IH]; simpl; intros Hnd; [apply List.NoDup_nil|].
  apply List.NoDup_cons_iff in Hnd as [Hn Hnd].
  apply List.NoDup_cons; [|apply IH, Hnd].
  intros Hin. apply in_map_iff in Hin as (c' & Hk & Hc').
  apply criterion_key_inj in Hk. apply Hn. rewrite <- Hk.
  apply in_map. exact Hc'.
Qed.

(** What the criterion loop assigns: one result per criterion, each made of
    the exit status of that criterion's child. *)
Lemma criteria_loop_assigns (cfg : Config number) w a u d i total cs :
  forall k0 aod (s : State) aod' s',
    criteria_loop utf8_encode utf8_decode cfg w a u d i total k0 cs aod s
      = (Returned aod', s') ->
    exists rs,
      criterion_fields aod' = set_properties rs (criterion_fields aod)
      /\ map fst rs = map criterion_key cs
      /\ forall j c, cs !! j = Some c ->
           exists st, exit_status (child_run w i (k0 + j)) = Returned st
                      /\ rs !! j
                         = Some (criterion_key c,
                                 criterion_result utf8_decode c
                                   (child_run w i (k0 + j)) st).
Proof.
  induction cs as [|c cs IH]; intros k0 aod s aod' s' E; simpl in E.
  - injection E as <- _. exists []. repeat split. intros j c Hj. discriminate.
  - apply bind_Returned in E as (r & s1 & Ec & E).
    apply evaluate_criterion_Returned in Ec as (st & Hst & _ & ->).
    apply IH in E as (rs & Hf & Hk & Hrs). simpl in Hf.
    exists ((criterion_key c, criterion_result utf8_decode c
                                (child_run w i k0) st) :: rs).
    split; [exact Hf|]. split; [simpl; f_equal; exact Hk|].
    intros [|j] c' Hj; simpl in Hj.
    + injection Hj as <-. rewrite Nat.add_0_r. eauto.
    + rewrite <- Nat.add_succ_comm. apply Hrs, Hj.
Qed.

Lemma in_workspace_assigns (cfg : Config number) w a course i u d
    (s : State) aod s' :
  in_workspace utf8_encode utf8_decode cfg w a course i u d s
    = (Returned aod, s') ->
  exists rs,
    criterion_fields aod = set_properties rs []
    /\ map fst rs = map criterion_key (criteria (rubric a))
    /\ forall j c, criteria (rubric a) !! j = Some c ->
         exists st, exit_status (child_run w i j) = Returned st
                    /\ rs !! j
                       = Some (criterion_key c,
                               criterion_result utf8_decode c (child_run w i j) st).
Proof.
  unfold in_workspace. intros E.
  repeat (apply bind_Returned in E as (? & ? & _ & E)).
  apply criteria_loop_assigns in E. exact E.
Qed.

Lemma in_workspace_fields (cfg : Config number) w a course i u d
    (s : State) aod s' :
  in_workspace utf8_encode utf8_decode cfg w a course i u d s
    = (Returned aod, s') ->
  List.NoDup (map criteria_id (criteria (rubric a))) ->
  user_id aod = user_node_id u
  /\ length (criterion_fields aod) = length (criteria (rubric a))
  /\ forall j c, criteria (rubric a) !! j = Some c ->
       exists st, exit_status (child_run w i j) = Returned st
                  /\ criterion_fields aod !! j
                     = Some (criterion_key c,
                             criterion_result utf8_decode c (child_run w i j) st).
Proof.
  intros E Hnd. split; [apply (in_workspace_user_id _ _ _ _ _ _ _ _ _ _ E)|].
  apply in_workspace_assigns in E as (rs & Hf & Hk & Hrs).
  assert (Hfields : criterion_fields aod = rs).
  { rewrite Hf, set_properties_fresh; [reflexivity|]. simpl. rewrite Hk.
    apply NoDup_criterion_keys, Hnd. }
  rewrite Hfields. split; [|exact Hrs].
  rewrite <- (length_map fst rs), Hk, length_map. reflexivity.
Qed.

(** X6. With pairwise distinct criterion ids, the record a submission's
    evaluation produces has exactly one [criterion_<id>] property per
    criterion, in the order of the rubric, each holding the points decided
    by the exit status of that criterion's child and the normalised text of
    its output; its [user_id] is the submission's user. *)
Theorem record_has_one_field_per_criterion (cfg : Config number) w a course i u d
    (s : State) aod s' :
  in_workspace utf8_encode utf8_decode cfg w a course i u d s
    = (Returned aod, s') ->
  List.NoDup (map criteria_id (criteria (rubric a))) ->
  user_id aod = user_node_id u
  /\ length (criterion_fields aod) = length (criteria (rubric a))
  /\ forall j c, criteria (rubric a) !! j = Some c ->
       exists st, exit_status (child_run w i j) = Returned st
                  /\ criterion_fields aod !! j
                     = Some (criterion_key c,
                             criterion_result utf8_decode c (child_run w i j) st).
Proof.
  exact (in_workspace_fields cfg w a course i u d s aod s').
Qed.

Lemma lookup_map {A B} (f : A -> B) (l : list A) : forall n,
  map f l !! n = option_map f (l !! n).
Proof.
  induction l as [|x l IH]; intros [|n]; simpl; auto.
Qed.

(** X7. When criterion ids repeat, the record keeps one property per id and
    the last criterion with an id decides it: for a criterion that no later
    one shares its id with, the property holds the result of that
    criterion's child. *)
Theorem last_criterion_with_an_id_wins (cfg : Config number) w a course i u d
    (s : State) aod s' j c :
  in_workspace utf8_encode utf8_decode cfg w a course i u d s
    = (Returned aod, s') ->
  criteria (rubric a) !! j = Some c ->
  (forall j' c', j < j' -> criteria (rubric a) !! j' = Some c' ->
                 criteria_id c' <> criteria_id c) ->
  exists st, exit_status (child_run w i j) = Returned st
             /\ get_property (criterion_key c) (criterion_fields aod)
                = Some (criterion_result utf8_decode c (child_run w i j) st).
Proof.
  intros E Hj Hlast.
  apply in_workspace_assigns in E as (rs & Hf & Hk & Hrs).
  destruct (Hrs j c Hj) as (st & Hst & Hr). exists st. split; [exact Hst|].
  rewrite Hf. apply list_elem_of_split_length in Hr as (rs1 & rs2 & -> & Hlen).
  apply get_set_properties_last. intros Hin.
  apply in_map_iff in Hin as ([k' v'] & Hk' & Hin). simpl in Hk'. subst k'.
  apply list_elem_of_In, list_elem_of_lookup in Hin as [n Hn].
  assert (Hn' : (rs1 ++ (criterion_key c,
                         criterion_result utf8_decode c (child_run w i j) st)
                        :: rs2) !! (S (j + n)) = Some (criterion_key c, v')).
  { rewrite lookup_app_r by lia. rewrite <- Hlen.
    replace (S (j + n) - j) with (S n) by lia. exact Hn. }
  assert (Hc' : exists c', criteria (rubric a) !! (S (j + n)) = Some c'
                           /\ criterion_key c' = criterion_key c).
  { assert (Hm : map fst (rs1 ++ (criterion_key c,
                           criterion_result utf8_decode c (child_run w i j) st)
                          :: rs2) !! (S (j + n)) = Some (criterion_key c)).
    { rewrite lookup_map, Hn'. reflexivity. }
    rewrite Hk, lookup_map in Hm.
    destruct (criteria (rubric a) !! S (j + n)) as [c'|]; [|discriminate].
    exists c'. split; [reflexivity|]. simpl in Hm. congruence. }
  destruct Hc' as (c' & Hc' & Hkey).
  apply (Hlast (S (j + n)) c'); [lia | exact Hc' | apply criterion_key_inj, Hkey].
Qed.

(** ** Downloading the attachments *)

(** The file operations touch nothing but the file system. *)
Lemma open_createNew_keeps {X} (f : State -> X) d name :
  (forall g s, f (set_fs g s) = f s) ->
  respects (keeps f) (open_createNew d name).
Proof.
  intros Hf s o s' E. unfold open_createNew in E.
  destruct (fs s !! d); [destruct (_ || _)|]; injection E as <- <-;
    unfold keeps; auto.
Qed.

Lemma file_write_keeps {X} (f : State -> X) d name chunk :
  (forall g s, f (set_fs g s) = f s) ->
  respects (keeps f) (file_write d name chunk).
Proof. intros Hf s o s' E. injection E as <- <-. apply Hf. Qed.

Lemma makeTempDir_keeps {X} (f : State -> X) w i :
  (forall g s, f (set_fs g s) = f s) ->
  respects (keeps f) (makeTempDir w i).
Proof.
  intros Hf s o s' E. unfold makeTempDir in E.
  destruct (makeTempDir_error w i); injection E as <- <-; unfold keeps; auto.
Qed.

Lemma remove_recursive_keeps {X} (f : State -> X) d :
  (forall g s, f (set_fs g s) = f s) ->
  respects (keeps f) (remove_recursive d).
Proof.
  intros Hf s o s' E. unfold remove_recursive in E.
  destruct (fs s !! d); injection E as <- <-; unfold keeps; auto.
Qed.

Lemma download_attachment_network (cfg : Config number) w i d j att
    (s : State) o s' :
  download_attachment cfg w i d j att s = (o, s') ->
  if contains_slash (display_name att)
  then o = Thrown (BSOD (display_name att)) /\ s' = s
  else network s' = network s ++ [GetAttachment (url att)].
Proof.
  unfold download_attachment. destruct (contains_slash (display_name att)).
  - intros E. injection E as <- <-. auto.
  - intros E. run_step E.
    match type of E with
    | ?f ?s1 = _ => assert (Hk : respects (keeps network) f)
    end.
    { apply respects_bind; [typeclasses eauto | frame_keeps | intros response].
      destruct (negb _); [frame_keeps|].
      destruct (body response) as [b|]; [|frame_keeps].
      apply respects_bind; [typeclasses eauto | | intros _].
      - apply open_createNew_keeps. reflexivity.
      - apply respects_bind; [typeclasses eauto | | intros _].
        + apply respects_for_each; [typeclasses eauto|]. intros ? chunk.
          apply respects_bind; [typeclasses eauto | | intros _].
          * apply file_write_keeps. reflexivity.
          * frame_keeps.
        + destruct (body_error b); frame_keeps. }
    apply Hk in E. exact E.
Qed.

(** X8. The attachments of a submission are requested one by one in the
    order the submission lists them, and the download stops at the first
    fault: the requests made are those of a prefix of the list, the whole
    list when the download completes. A display name that contains a slash
    is refused before its file is requested, so neither that attachment nor
    any later one is requested. *)
Theorem attachments_requested_in_order (cfg : Config number) w i d atts :
  forall j0 (s : State) o s',
    for_each (download_attachment cfg w i d) j0 atts s = (o, s') ->
    exists n,
      n <= length atts
      /\ network s'
         = network s ++ map (fun att => GetAttachment (url att)) (take n atts)
      /\ (o = Returned tt -> n = length atts)
      /\ (forall j att, atts !! j = Some att ->
                        contains_slash (display_name att) = true ->
                        n <= j /\ o <> Returned tt).
Proof.
  induction atts as [|att atts IH]; intros j0 s o s' E; simpl in E.
  - injection E as <- <-. exists 0. simpl. rewrite app_nil_r.
    repeat split; auto. discriminate.
  - apply bind_cases in E as [([] & s1 & Ed & E)|(e & Ed & ->)];
      apply download_attachment_network in Ed.
    + destruct (contains_slash (display_name att)) eqn:Hs;
        [destruct Ed; discriminate|].
      apply IH in E as (n & Hn & Hnet & Hret & Hslash).
      exists (S n). simpl. split; [lia|]. split.
      { rewrite Hnet, Ed, <- app_assoc. reflexivity. }
      split; [intros Ho; f_equal; auto|].
      intros [|j] att' Hj Hs'; simpl in Hj.
      * injection Hj as <-. congruence.
      * destruct (Hslash j att' Hj Hs'). split; [lia | assumption].
    + destruct (contains_slash (display_name att)) eqn:Hs.
      * destruct Ed as [_ ->]. exists 0. simpl. rewrite app_nil_r.
        repeat split; try discriminate; lia.
      * exists 1. simpl. split; [lia|]. split; [exact Ed|].
        split; [discriminate|].
        intros [|j] att' Hj Hs'; simpl in Hj.
        -- injection Hj as <-. congruence.
        -- split; [lia | discriminate].
Qed.

Lemma append_to_file name content chunk (files : list (jsstring * bytes)) :
  ~ In name (map fst files) ->
  map (fun f => if jsstring_eqb (fst f) name then (fst f, snd f ++ chunk) else f)
      (files ++ [(name, content)])
  = files ++ [(name, content ++ chunk)].
Proof using Type.
  intros Hn. rewrite map_app. simpl. rewrite jsstring_eqb_refl. f_equal.
  induction files as [|[k c] files IH]; simpl in *; [reflexivity|].
  rewrite jsstring_eqb_neq by (intros ->; apply Hn; left; reflexivity).
  f_equal. apply IH. intros Hin. apply Hn. right. exact Hin.
Qed.

Lemma write_chunks_stored (cfg : Config number) d name chunks :
  forall j files content (s : State) s',
    for_each (fun _ chunk =>
                bind (file_write d name chunk)
                     (fun _ => when (verbose cfg) (stdout_write chunk)))
             j chunks s = (Returned tt, s') ->
    fs s !! d = Some (files ++ [(name, content)]) ->
    ~ In name (map fst files) ->
    fs s' !! d = Some (files ++ [(name, content ++ concat chunks)])
    /\ forall d', d' <> d -> fs s' !! d' = fs s !! d'.
Proof using Type.
  induction chunks as [|chunk chunks IH]; intros j files content s s' E Hd Hn;
    simpl in E.
  - injection E as <-. simpl. rewrite app_nil_r. auto.
  - apply bind_Returned in E as ([] & s1 & Ew & E).
    apply bind_Returned in Ew as ([] & s2 & Ew & Ev).
    injection Ew as <-.
    assert (Hfs : fs s1 = alter (map (fun f => if jsstring_eqb (fst f) name
                                               then (fst f, snd f ++ chunk)
                                               else f)) d (fs s)).
    { destruct (verbose cfg); injection Ev as <-; reflexivity. }
    destruct (IH _ files (content ++ chunk) _ _ E) as [Hd' Hother].
    + rewrite Hfs, lookup_alter_eq, Hd. simpl.
      rewrite append_to_file by exact Hn. reflexivity.
    + exact Hn.
    + split.
      * rewrite Hd'. simpl. rewrite <- app_assoc. reflexivity.
      * intros d' Hne. rewrite Hother, Hfs by exact Hne.
        apply lookup_alter_ne. congruence.
Qed.

(** One attachment that downloads: what the world answered, and what is on
    disk afterwards. *)
Lemma download_attachment_Returned (cfg : Config number) w i d j att files
    (s : State) s' :
  download_attachment cfg w i d j att s = (Returned tt, s') ->
  fs s !! d = Some files ->
  exists resp b,
    attachment_response w i j = Returned resp
    /\ status resp = 200%Z /\ body resp = Some b /\ body_error b = None
    /\ contains_slash (display_name att) = false
    /\ resolves_to_directory (display_name att) = false
    /\ ~ In (display_name att) (map fst files)
    /\ fs s' !! d = Some (files ++ [(display_name att, concat (chunks b))])
    /\ forall d', d' <> d -> fs s' !! d' = fs s !! d'.
Proof using Type.
  unfold download_attachment. intros E Hd.
  destruct (contains_slash (display_name att)) eqn:Hslash; [discriminate|].
  run_step E.
  apply bind_Returned in E as (resp & s1 & El & E).
  injection El as Hresp <-.
  destruct (Z.eqb_spec (status resp) 200) as [H200|]; [|discriminate].
  simpl in E. destruct (body resp) as [b|] eqn:Hb; [|discriminate].
  apply bind_Returned in E as ([] & s2 & Eo & E).
  apply bind_Returned in E as ([] & s3 & Ew & E).
  destruct (body_error b) eqn:Hbe; [discriminate|]. injection E as <-.
  unfold open_createNew in Eo. simpl in Eo. rewrite Hd in Eo.
  destruct (resolves_to_directory (display_name att)) eqn:Hr; [discriminate|].
  destruct (existsb _ files) eqn:Hex; [discriminate|].
  simpl in Eo. injection Eo as <-.
  assert (Hn : ~ In (display_name att) (map fst files)).
  { intros Hin. apply in_map_iff in Hin as (f & Hf & Hin).
    assert (Ht : existsb (fun f => jsstring_eqb (fst f) (display_name att))
                         files = true).
    { apply existsb_exists. exists f. split; [exact Hin|].
      apply jsstring_eqb_eq. exact Hf. }
    congruence. }
  eapply write_chunks_stored in Ew as [Hstored Hother];
    [| simpl; apply lookup_insert_eq | exact Hn].
  exists resp, b.
  do 8 (split; [first [assumption | reflexivity]|]).
  intros d' Hne. rewrite Hother by exact Hne. simpl.
  apply lookup_insert_ne. congruence.
Qed.

(** X9. When the download of a submission's attachments completes, the
    working directory holds, after the files it had, one file per
    attachment in order, named by its display name and holding the
    concatenation of the chunks of the body that was answered with status
    200; no other directory has changed. *)
Theorem downloaded_files_are_stored (cfg : Config number) w i d atts :
  forall j0 files (s : State) s',
    for_each (download_attachment cfg w i d) j0 atts s = (Returned tt, s') ->
    fs s !! d = Some files ->
    exists stored,
      fs s' !! d = Some (files ++ stored)
      /\ map fst stored = map display_name atts
      /\ (forall j att, atts !! j = Some att ->
            exists resp b,
              attachment_response w i (j0 + j) = Returned resp
              /\ status resp = 200%Z /\ body resp = Some b
              /\ stored !! j = Some (display_name att, concat (chunks b)))
      /\ (forall d', d' <> d -> fs s' !! d' = fs s !! d').
Proof using Type.
  induction atts as [|att atts IH]; intros j0 files s s' E Hd; simpl in E.
  - injection E as <-. exists []. rewrite app_nil_r.
    repeat split; auto. intros j att Hj. discriminate.
  - apply bind_Returned in E as ([] & s1 & Ed & E).
    eapply download_attachment_Returned in Ed
      as (resp & b & Hresp & H200 & Hb & _ & _ & _ & _ & Hd1 & Hother1);
      [|exact Hd].
    destruct (IH _ _ _ _ E Hd1) as (stored & Hd' & Hnames & Hat & Hother).
    exists ((display_name att, concat (chunks b)) :: stored).
    split; [rewrite Hd', <- app_assoc; reflexivity|].
    split; [simpl; f_equal; exact Hnames|]. split.
    + intros [|j] att' Hj; simpl in Hj.
      * injection Hj as <-. rewrite Nat.add_0_r.
        exists resp, b. repeat split; assumption.
      * rewrite <- Nat.add_succ_comm. apply Hat, Hj.
    + intros d' Hne. rewrite Hother, Hother1 by exact Hne. reflexivity.
Qed.

(** X10. A download that completes has met only display names that are
    usable as file names in the working directory: none contains a slash,
    none is empty or a dot name, none is the name of a file already there,
    and no two are the same; so an attachment that repeats a name makes the
    submission's evaluation fail. *)
Theorem completed_download_has_distinct_names (cfg : Config number) w i d atts :
  forall j0 files (s : State) s',
    for_each (download_attachment cfg w i d) j0 atts s = (Returned tt, s') ->
    fs s !! d = Some files ->
    List.NoDup (map fst files) ->
    List.NoDup (map fst files ++ map display_name atts)
    /\ Forall (fun att => contains_slash (display_name att) = false
                          /\ resolves_to_directory (display_name att) = false)
              atts.
Proof using Type.
  induction atts as [|att atts IH]; intros j0 files s s' E Hd Hnd; simpl in E.
  - simpl. rewrite app_nil_r. auto.
  - apply bind_Returned in E as ([] & s1 & Ed & E).
    eapply download_attachment_Returned in Ed
      as (resp & b & _ & _ & _ & _ & Hslash & Hdir & Hfresh & Hd1 & _);
      [|exact Hd].
    destruct (IH _ _ _ _ E Hd1) as [Hnd' Hall].
    + rewrite map_app. simpl. apply NoDup_ListNoDup.
      apply NoDup_app. split; [apply NoDup_ListNoDup, Hnd|]. split.
      * intros x Hx Hx'. apply list_elem_of_In in Hx.
        apply list_elem_of_In in Hx'. destruct Hx' as [<-|[]].
        exact (Hfresh Hx).
      * apply NoDup_ListNoDup. repeat constructor. intros [].
    + split; [|constructor; auto].
      rewrite map_app, <- app_assoc in Hnd'. exact Hnd'.
Qed.

(** ** The whole evaluation *)

Abbreviation only_gets := (@only_gets number).
Abbreviation is_get := (@is_get number).

Section EvaluateFrame.

(** A relation that every step of [evaluate] respects. *)
Variable R : relation State.
Context `{!PreOrder R}.
Hypothesis R_stdout_write : forall b, respects R (stdout_write b).
Hypothesis R_console_log : forall l, respects R (console_log l).
Hypothesis R_record_process : forall p, respects R (record_process p).
Hypothesis R_set_fs : forall g s, R s (set_fs g s).
Hypothesis R_get : forall r, is_get r = true -> respects R (request r).

Lemma R_makeTempDir w i : respects R (makeTempDir w i).
Proof.
  intros s o s' E. unfold makeTempDir in E.
  destruct (makeTempDir_error w i); injection E as <- <-;
    [reflexivity | apply R_set_fs].
Qed.

Lemma R_remove_recursive d : respects R (remove_recursive d).
Proof.
  intros s o s' E. unfold remove_recursive in E.
  destruct (fs s !! d); injection E as <- <-; [apply R_set_fs | reflexivity].
Qed.

Lemma R_open_createNew d name : respects R (open_createNew d name).
Proof.
  intros s o s' E. unfold open_createNew in E.
  destruct (fs s !! d); [destruct (_ || _)|]; injection E as <- <-;
    try reflexivity; apply R_set_fs.
Qed.

Lemma R_file_write d name chunk : respects R (file_write d name chunk).
Proof. intros s o s' E. injection E as <- <-. apply R_set_fs. Qed.

Lemma R_download_attachment (cfg : Config number) w i d j att :
  respects R (download_attachment cfg w i d j att).
Proof.
  unfold download_attachment.
  destruct (contains_slash (display_name att)); [apply respects_throw, _|].
  apply respects_bind; [exact _ | apply R_get; reflexivity | intros _].
  apply respects_bind; [exact _ | apply respects_lift, _ | intros response].
  destruct (negb _); [apply respects_throw, _|].
  destruct (body response) as [b|]; [|apply respects_throw, _].
  apply respects_bind; [exact _ | apply R_open_createNew | intros _].
  apply respects_bind; [exact _ | | intros _].
  - apply respects_for_each; [exact _|]. intros ? chunk.
    apply respects_bind; [exact _ | apply R_file_write | intros _].
    apply respects_when; [exact _ | apply R_stdout_write].
  - destruct (body_error b); [apply respects_throw, _ | apply respects_ret, _].
Qed.

Lemma R_in_workspace (cfg : Config number) w a course i u d :
  respects R (in_workspace utf8_encode utf8_decode cfg w a course i u d).
Proof.
  unfold in_workspace.
  apply respects_bind; [exact _ | apply R_get; reflexivity | intros _].
  apply respects_bind; [exact _ | apply respects_lift, _ | intros atts].
  apply respects_bind; [exact _ | | intros _].
  - apply respects_for_each; [exact _|]. intros. apply R_download_attachment.
  - apply respects_criteria_loop; assumption.
Qed.

Lemma R_evaluate_submission (cfg : Config number) w a course i sub acc :
  respects R (evaluate_submission utf8_encode utf8_decode cfg w a course i
                sub acc).
Proof.
  unfold evaluate_submission. cbv zeta.
  destruct (excluded cfg (user_node_id (user sub))).
  - apply respects_bind; [exact _ | | intros _; apply respects_ret, _].
    apply respects_when; [exact _ | apply R_console_log].
  - apply respects_bind; [exact _ | apply R_console_log | intros _].
    apply respects_bind; [exact _ | apply R_makeTempDir | intros d].
    apply respects_bind; [exact _ | | intros aod].
    + apply respects_try_finally; [exact _ | apply R_in_workspace |].
      unfold cleanup.
      apply respects_bind; [exact _ | | intros _; apply R_remove_recursive].
      apply respects_when; [exact _ | apply R_console_log].
    + apply respects_bind; [exact _ | | intros _; apply respects_ret, _].
      apply respects_when; [exact _ | apply R_console_log].
Qed.

Lemma R_submission_loop (cfg : Config number) w a course subs :
  forall i acc,
    respects R (submission_loop utf8_encode utf8_decode cfg w a course i subs
                  acc).
Proof.
  induction subs as [|sub subs IH]; intros i acc; simpl.
  - apply respects_ret, _.
  - apply respects_bind; [exact _ | apply R_evaluate_submission | intros ?].
    apply IH.
Qed.

Lemma R_evaluate (cfg : Config number) w input :
  respects R (evaluate utf8_encode utf8_decode cfg w input).
Proof.
  unfold evaluate. cbv zeta.
  apply respects_bind; [exact _ | apply R_submission_loop | intros l].
  apply respects_bind; [exact _ | | intros _; apply respects_ret, _].
  apply respects_when; [exact _|].
  repeat (apply respects_bind; [exact _ | apply R_console_log | intros _]).
  apply R_console_log.
Qed.

End EvaluateFrame.

#[local] Instance only_gets_preorder : PreOrder only_gets.
Proof.
  split.
  - intros s. exists []. rewrite app_nil_r. auto.
  - intros s1 s2 s3 (l1 & H1 & G1) (l2 & H2 & G2). exists (l1 ++ l2).
    rewrite H2, H1, <- app_assoc, forallb_app, G1, G2. auto.
Qed.

Lemma keeps_network_only_gets {A} (m : Eff number A) :
  respects (keeps network) m -> respects only_gets m.
Proof.
  intros Hm s o s' E. apply Hm in E. exists []. rewrite app_nil_r. auto.
Qed.

(** X11. [evaluate] leaves the file system exactly as it found it, whether
    it returns the dataset or is aborted by a fault: no working directory
    of any submission survives the run. *)
Theorem evaluate_restores_the_file_system (cfg : Config number) w input
    (s : State) o s' :
  evaluate utf8_encode utf8_decode cfg w input s = (o, s') ->
  fs s' = fs s.
Proof.
  assert (Hloop : forall subs i acc (s : State) o s',
             submission_loop utf8_encode utf8_decode cfg w
               (input_assignment input)
               (num_parseInt (course_node_id (input_assignment input)))
               i subs acc s = (o, s') -> fs s' = fs s).
  { induction subs as [|sub subs IH]; intros i acc s1 o1 s1' E; simpl in E.
    - injection E as _ <-. reflexivity.
    - apply bind_cases in E as [(acc' & s2 & E1 & E)|(e & E1 & _)].
      + apply IH in E. apply evaluate_submission_fs in E1. congruence.
      + apply evaluate_submission_fs in E1. exact E1. }
  unfold evaluate. cbv zeta. intros E.
  apply bind_cases in E as [(l & s1 & El & E)|(e & El & _)].
  - apply Hloop in El. rewrite <- El.
    match type of E with
    | ?f ?s1 = _ => assert (Hk : respects (keeps fs) f) by frame_keeps
    end.
    apply (Hk _ _ _ E).
  - apply (Hloop _ _ _ _ _ _ El).
Qed.

(** X12. [evaluate] only reads from the server: whatever its outcome, the
    requests it has added are fetches of submissions and of attachments,
    never the posting of an assessment; and it leaves every dataset object
    on the heap alone. *)
Theorem evaluate_never_posts (cfg : Config number) w input (s : State) o s' :
  evaluate utf8_encode utf8_decode cfg w input s = (o, s') ->
  (exists l, network s' = network s ++ l /\ forallb is_get l = true)
  /\ heap s' = heap s.
Proof.
  intros E. split.
  - revert E. apply (R_evaluate only_gets);
      try (intros; apply keeps_network_only_gets; prim_keeps).
    + intros g s0. exists []. simpl. rewrite app_nil_r. auto.
    + intros r Hr s0 o0 s0' E0. injection E0 as <- <-. exists [r]. simpl.
      rewrite Hr. auto.
  - revert E. apply (R_evaluate (keeps heap)); try (intros; prim_keeps).
    intros g s0. reflexivity.
Qed.

Section UploadFrame.

(** A relation that every step of [upload] respects. *)
Variable R : relation State.
Context `{!PreOrder R}.
Hypothesis R_stdout_write : forall b, respects R (stdout_write b).
Hypothesis R_console_log : forall l, respects R (console_log l).
Hypothesis R_request : forall r, respects R (request r).
Hypothesis R_set_heap : forall h s, R s (set_heap h s).

Lemma R_filter_records (cfg : Config number) l : respects R (filter_records cfg l).
Proof.
  induction l as [|a l IH]; simpl; [apply respects_ret, _|].
  destruct (excluded cfg (user_id a)).
  - apply respects_bind; [exact _ | apply R_console_log | intros _; exact IH].
  - apply respects_bind; [exact _ | exact IH | intros ?; apply respects_ret, _].
Qed.

Lemma R_upload_record (cfg : Config number) w course association k a acc :
  respects R (upload_record utf8_encode cfg w course association k a acc).
Proof.
  unfold upload_record.
  apply respects_bind; [exact _ | | intros _].
  { apply respects_when; [exact _ | apply R_console_log]. }
  apply respects_bind; [exact _ | | intros result].
  - destruct (dryRun cfg).
    + apply respects_bind; [exact _ | apply respects_lift, _ | intros p].
      apply respects_bind; [exact _ | apply R_console_log | intros _].
      apply respects_ret, _.
    + apply respects_bind; [exact _ | apply R_request | intros _].
      apply respects_lift, _.
  - destruct (errors result).
    + apply respects_bind; [exact _ | apply R_stdout_write | intros _].
      apply respects_ret, _.
    + apply respects_bind; [exact _ | | intros _; apply respects_ret, _].
      apply respects_when; [exact _ | apply R_stdout_write].
Qed.

Lemma R_upload_loop (cfg : Config number) w course association l :
  forall k acc,
    respects R (upload_loop utf8_encode cfg w course association k l acc).
Proof.
  induction l as [|a l IH]; intros k acc; simpl; [apply respects_ret, _|].
  apply respects_bind; [exact _ | apply R_upload_record | intros ?; apply IH].
Qed.

Lemma R_upload (cfg : Config number) w ref :
  respects R (upload utf8_encode cfg w ref).
Proof.
  unfold upload.
  apply respects_bind; [exact _ | | intros d].
  { intros s o s' E. unfold deref in E.
    destruct (heap s !! ref); injection E as <- <-; reflexivity. }
  apply respects_bind; [exact _ | apply R_filter_records | intros kept].
  apply respects_bind; [exact _ | | intros _].
  { intros s o s' E. injection E as <- <-. apply R_set_heap. }
  apply respects_bind; [exact _ | | intros _].
  { apply respects_when; [exact _ | apply R_console_log]. }
  apply respects_bind; [exact _ | | intros _].
  { apply respects_for_each; [exact _|]. intros. apply R_stdout_write. }
  apply respects_bind; [exact _ | apply R_stdout_write | intros _].
  apply respects_bind; [exact _ | apply R_console_log | intros _].
  apply respects_bind; [exact _ | apply R_upload_loop | intros acc].
  apply respects_bind; [exact _ | | intros _].
  { apply respects_when; [exact _ | apply R_stdout_write]. }
  apply respects_bind; [exact _ | apply R_console_log | intros _].
  apply respects_bind; [exact _ | | intros _].
  { apply respects_when; [exact _ | apply R_console_log]. }
  apply respects_bind; [exact _ | | intros _].
  { apply respects_for_each; [exact _|]. intros. apply R_console_log. }
  apply respects_bind; [exact _ | apply R_console_log | intros _].
  apply respects_ret, _.
Qed.

Lemma R_upload_copy (cfg : Config number) w ref association :
  respects R (upload_copy utf8_encode cfg w ref association).
Proof.
  unfold upload_copy.
  apply respects_bind; [exact _ | | intros d].
  { intros s o s' E. unfold deref in E.
    destruct (heap s !! ref); injection E as <- <-; reflexivity. }
  apply respects_bind; [exact _ | | intros copy; apply R_upload].
  intros s o s' E. injection E as <- <-. apply R_set_heap.
Qed.

End UploadFrame.

(** X13. [upload] works on the console, the network and the dataset object
    only: whatever its outcome, it has started no process and has left the
    file system alone; the same holds when it is called on a copy, as the
    script does. *)
Theorem upload_starts_nothing (cfg : Config number) w ref association
    (s : State) :
  (forall o s', upload utf8_encode cfg w ref s = (o, s') ->
                processes s' = processes s /\ fs s' = fs s)
  /\ (forall o s', upload_copy utf8_encode cfg w ref association s = (o, s') ->
                   processes s' = processes s /\ fs s' = fs s).
Proof.
  split; intros o s' E; split; revert E;
    first [ apply (R_upload (keeps processes))
          | apply (R_upload (keeps fs))
          | apply (R_upload_copy (keeps processes))
          | apply (R_upload_copy (keeps fs)) ];
    try (intros; prim_keeps); intros; reflexivity.
Qed.

(** ** The dataset of a completed evaluation *)

Lemma submission_loop_records (P : AssessmentOutputData number -> Prop)
    (cfg : Config number) w a course :
  (forall i u d (s : State) aod s',
      in_workspace utf8_encode utf8_decode cfg w a course i u d s
        = (Returned aod, s') -> P aod) ->
  forall subs i acc (s : State) l s',
    submission_loop utf8_encode utf8_decode cfg w a course i subs acc s
      = (Returned l, s') ->
    Forall P acc -> Forall P l.
Proof.
  intros HP. induction subs as [|sub subs IH]; intros i acc s l s' E Hacc;
    simpl in E.
  - injection E as <- _. exact Hacc.
  - apply bind_Returned in E as (acc' & s1 & E1 & E).
    apply (IH _ _ _ _ _ E). clear IH E.
    unfold evaluate_submission in E1. cbv zeta in E1.
    destruct (excluded cfg (user_node_id (user sub))).
    + apply bind_Returned in E1 as (? & ? & _ & E1). injection E1 as <- _.
      exact Hacc.
    + run_step E1.
      apply bind_Returned in E1 as (d & s2 & Em & E1).
      apply makeTempDir_cases in Em
        as [(e' & _ & Ho & _)|(_ & Ho & _ & Hfs)]; [discriminate|].
      injection Ho as ->.
      apply bind_Returned in E1 as (aod & s3 & Et & E1).
      apply scoped_workspace in Et as [_ (sb & Eb)];
        [|rewrite Hfs, lookup_insert_eq; eauto].
      apply bind_Returned in E1 as (? & ? & _ & E1). injection E1 as <- _.
      apply Forall_app. split; [exact Hacc|]. constructor; [|constructor].
      apply (HP _ _ _ _ _ _ Eb).
Qed.

(** X14. The dataset of a completed evaluation carries the endpoint, the
    parsed course id, the assignment id and the rubric association id it
    was given, unchanged; and, the criterion ids being distinct, each of its
    records has exactly the rubric's criteria as properties, in order, each
    worth either the criterion's points or 0. *)
Theorem dataset_shape (cfg : Config number) w input (s : State) d s' :
  evaluate utf8_encode utf8_decode cfg w input s = (Returned d, s') ->
  data_canvas d = canvas cfg
  /\ data_course d = num_parseInt (course_node_id (input_assignment input))
  /\ data_assignment d = assignment cfg
  /\ rubricAssociationId d = input_rubricAssociationId input
  /\ (List.NoDup (map criteria_id (criteria (rubric (input_assignment input)))) ->
      Forall
        (fun aod =>
           Forall2 (fun c f =>
                      fst f = criterion_key c
                      /\ (points (snd f) = criteria_points c
                          \/ points (snd f) = num_zero))
                   (criteria (rubric (input_assignment input)))
                   (criterion_fields aod))
        (assessmentOutputDataList d)).
Proof.
  unfold evaluate. cbv zeta. intros E.
  apply bind_Returned in E as (l & s1 & El & E).
  apply bind_Returned in E as (? & ? & _ & E). injection E as <- _. simpl.
  repeat split. intros Hnd.
  eapply submission_loop_records; [|exact El|constructor].
  intros i u dir s0 aod s0' Ew.
  destruct (in_workspace_fields _ _ _ _ _ _ _ _ _ _ Ew Hnd)
    as (_ & Hlen & Hfields).
  apply Forall2_same_length_lookup. split; [symmetry; exact Hlen|].
  intros j c f Hc Hf. destruct (Hfields j c Hc) as (st & _ & Hf').
  rewrite Hf' in Hf. injection Hf as <-. simpl. split; [reflexivity|].
  destruct (success st); auto.
Qed.

(** ** A run in which nothing goes wrong *)

Abbreviation healthy_submission := (@healthy_submission).

Lemma returns_for_each {A} (f : nat -> A -> Eff number unit) l :
  (forall j x, returns (f j x)) -> forall j, returns (for_each f j l).
Proof.
  intros Hf. induction l as [|x l IH]; intros j; simpl; [apply returns_ret|].
  apply returns_bind; [apply Hf | intros _; apply IH].
Qed.

Lemma returns_file_write d name chunk :
  returns (file_write d name chunk : Eff number unit).
Proof. intros s. eexists _, _. reflexivity. Qed.

Lemma download_attachment_returns (cfg : Config number) w i d j att files resp b
    (s : State) :
  fs s !! d = Some files ->
  ~ In (display_name att) (map fst files) ->
  contains_slash (display_name att) = false ->
  resolves_to_directory (display_name att) = false ->
  attachment_response w i j = Returned resp ->
  status resp = 200%Z -> body resp = Some b -> body_error b = None ->
  exists s', download_attachment cfg w i d j att s = (Returned tt, s').
Proof.
  intros Hd Hn Hslash Hdir Hresp H200 Hb Hbe.
  assert (Hex : existsb (fun f : jsstring * bytes =>
                           jsstring_eqb (fst f) (display_name att)) files
                = false).
  { destruct (existsb _ files) eqn:Hex; [|reflexivity].
    apply existsb_exists in Hex as (f & Hin & Hf).
    apply jsstring_eqb_eq in Hf. exfalso. apply Hn. rewrite <- Hf.
    apply in_map. exact Hin. }
  unfold download_attachment. rewrite Hslash, Hresp.
  erewrite bind_run by reflexivity. erewrite bind_run by reflexivity.
  rewrite H200, Hb, Hbe. cbn [Z.eqb Pos.eqb negb].
  erewrite bind_run
    by (unfold open_createNew; cbn [fs]; rewrite Hd, Hdir, Hex; reflexivity).
  match goal with
  | |- exists s', bind ?m _ ?s1 = _ =>
      assert (Hm : returns m);
      [|destruct (Hm s1) as ([] & s2 & Em); rewrite (bind_run _ _ _ _ _ Em)]
  end.
  - apply returns_for_each. intros ? chunk.
    apply returns_bind; [apply returns_file_write | intros _].
    apply returns_when, returns_stdout_write.
  - eexists. reflexivity.
Qed.

Lemma download_loop_returns (cfg : Config number) w i d atts :
  forall j0 files (s : State),
    fs s !! d = Some files ->
    List.NoDup (map fst files ++ map display_name atts) ->
    Forall (fun att => contains_slash (display_name att) = false
                       /\ resolves_to_directory (display_name att) = false)
           atts ->
    (forall j att, atts !! j = Some att ->
       exists resp b,
         attachment_response w i (j0 + j) = Returned resp
         /\ status resp = 200%Z /\ body resp = Some b /\ body_error b = None) ->
    exists s', for_each (download_attachment cfg w i d) j0 atts s
               = (Returned tt, s').
Proof using Type.
  induction atts as [|att atts IH]; intros j0 files s Hd Hnd Hok Hresp.
  - eexists. reflexivity.
  - inversion Hok as [|? ? [Hslash Hdir] Hok']; subst.
    destruct (Hresp 0 att eq_refl) as (resp & b & Hr & H200 & Hb & Hbe).
    rewrite Nat.add_0_r in Hr.
    assert (Hn : ~ In (display_name att) (map fst files)).
    { simpl in Hnd. apply NoDup_remove_2 in Hnd. intros Hin. apply Hnd.
      apply in_or_app. left. exact Hin. }
    destruct (download_attachment_returns cfg w i d j0 att files resp b s
                Hd Hn Hslash Hdir Hr H200 Hb Hbe) as (s1 & E1).
    destruct (download_attachment_Returned _ _ _ _ _ _ _ _ _ E1 Hd)
      as (resp' & b' & _ & _ & _ & _ & _ & _ & _ & Hd1 & _).
    destruct (IH (S j0) _ s1 Hd1) as (s' & E').
    + rewrite map_app, <- app_assoc. exact Hnd.
    + exact Hok'.
    + intros j att' Hj. rewrite Nat.add_succ_comm. apply (Hresp (S j) att' Hj).
    + exists s'. cbn [for_each]. rewrite (bind_run _ _ _ _ _ E1). exact E'.
Qed.

Lemma criteria_loop_returns (cfg : Config number) w a u d i total cs :
  forall k0 aod,
    (forall k, k < length cs -> healthy_child (child_run w i (k0 + k))) ->
    returns (criteria_loop utf8_encode utf8_decode cfg w a u d i total k0 cs
               aod).
Proof.
  induction cs as [|c cs IH]; intros k0 aod Hh; simpl; [apply returns_ret|].
  apply returns_bind.
  - destruct (Hh 0) as (Hsp & Hok & st & Hst); [simpl; lia|].
    rewrite Nat.add_0_r in *.
    eapply evaluate_criterion_returns; eassumption.
  - intros r. apply IH. intros k Hk. rewrite Nat.add_succ_comm.
    apply Hh. simpl. lia.
Qed.

Lemma in_workspace_returns (cfg : Config number) w a course i u d (s : State) :
  fs s !! d = Some [] ->
  healthy_submission w (length (criteria (rubric a))) i ->
  exists aod sb,
    in_workspace utf8_encode utf8_decode cfg w a course i u d s
    = (Returned aod, sb).
Proof.
  intros Hd (_ & atts & Hrest & Hnd & Hok & Hresp & Hkids).
  unfold in_workspace. erewrite bind_run by reflexivity.
  rewrite Hrest. erewrite bind_run by reflexivity.
  match goal with
  | |- context [bind (for_each _ _ _) _ ?s1] =>
      destruct (download_loop_returns cfg w i d atts 0 [] s1) as (s2 & E2);
      [exact Hd | exact Hnd | exact Hok | exact Hresp |]
  end.
  rewrite (bind_run _ _ _ _ _ E2).
  apply (criteria_loop_returns cfg w a u d i _ _ 0 _ Hkids).
Qed.

Lemma evaluate_submission_returns (cfg : Config number) w a course i sub acc
    (s : State) :
  (excluded cfg (user_node_id (user sub)) = false ->
   healthy_submission w (length (criteria (rubric a))) i) ->
  exists acc' s',
    evaluate_submission utf8_encode utf8_decode cfg w a course i sub acc s
    = (Returned acc', s').
Proof.
  intros Hh. unfold evaluate_submission. cbv zeta.
  destruct (excluded cfg (user_node_id (user sub))).
  - destruct (verbose cfg); eexists _, _; reflexivity.
  - specialize (Hh eq_refl). assert (Htmp := proj1 Hh).
    erewrite bind_run by reflexivity.
    erewrite bind_run by (unfold makeTempDir; rewrite Htmp; reflexivity).
    match goal with
    | |- context [bind (try_finally (in_workspace _ _ _ _ _ _ _ _ ?d) _) _ ?s1] =>
        destruct (in_workspace_returns cfg w a course i (user sub) d s1)
          as (aod & sb & Eb); [apply lookup_insert_eq | exact Hh |];
        destruct (only_dir_in_workspace _ _ _ _ _ _ _ _ _ _ Eb) as [_ Hkeep];
        destruct (cleanup_removes cfg d sb) as (s2 & Ec & _);
        [apply Hkeep; simpl; rewrite lookup_insert_eq; eauto|];
        assert (Et : try_finally
                       (in_workspace utf8_encode utf8_decode cfg w a course i
                          (user sub) d) (cleanup cfg d) s1
                     = (Returned aod, s2))
          by (unfold try_finally; rewrite Eb, Ec; reflexivity)
    end.
    rewrite (bind_run _ _ _ _ _ Et).
    destruct (verbose cfg); eexists _, _; reflexivity.
Qed.

Lemma submission_loop_returns (cfg : Config number) w a course subs :
  forall i0 acc (s : State),
    (forall j sub, subs !! j = Some sub ->
       excluded cfg (user_node_id (user sub)) = false ->
       healthy_submission w (length (criteria (rubric a))) (i0 + j)) ->
    exists l s',
      submission_loop utf8_encode utf8_decode cfg w a course i0 subs acc s
      = (Returned l, s').
Proof.
  induction subs as [|sub subs IH]; intros i0 acc s Hh; simpl.
  - eexists _, _. reflexivity.
  - destruct (evaluate_submission_returns cfg w a course i0 sub acc s)
      as (acc' & s1 & E1).
    { intros Hex. specialize (Hh 0 sub eq_refl Hex).
      rewrite Nat.add_0_r in Hh. exact Hh. }
    rewrite (bind_run _ _ _ _ _ E1). apply IH.
    intros j sub' Hj Hex. rewrite Nat.add_succ_comm. apply (Hh (S j) sub' Hj Hex).
Qed.

(** X15. When nothing goes wrong for the submissions that are not skipped
    (the directory is made, the attachments are listed with distinct usable
    names and download with status 200, every child starts, ends its
    streams and reports a status), [evaluate] returns a dataset, from any
    state. *)
Theorem healthy_evaluation_returns (cfg : Config number) w input (s : State) :
  (forall i sub,
      submissions (input_assignment input) !! i = Some sub ->
      excluded cfg (user_node_id (user sub)) = false ->
      healthy_submission w
        (length (criteria (rubric (input_assignment input)))) i) ->
  exists d s', evaluate utf8_encode utf8_decode cfg w input s = (Returned d, s').
Proof.
  intros Hh. unfold evaluate. cbv zeta.
  destruct (submission_loop_returns cfg w (input_assignment input)
              (num_parseInt (course_node_id (input_assignment input)))
              (submissions (input_assignment input)) 0 [] s Hh)
    as (l & s1 & El).
  rewrite (bind_run _ _ _ _ _ El).
  destruct (verbose cfg); eexists _, _; reflexivity.
Qed.

(** ** A real upload *)

Abbreviation extend := (@extend number).
Abbreviation posted_events := (@posted_events number utf8_encode).

Lemma extend_extend evs1 reqs1 evs2 reqs2 (s : State) :
  extend evs2 reqs2 (extend evs1 reqs1 s)
  = extend (evs1 ++ evs2) (reqs1 ++ reqs2) s.
Proof. unfold extend. simpl. rewrite !app_assoc. reflexivity. Qed.

Lemma extend_nil (s : State) : extend [] [] s = s.
Proof. destruct s. unfold extend. simpl. rewrite !app_nil_r. reflexivity. Qed.

Lemma upload_record_real (cfg : Config number) w course association k a acc r
    (s : State) :
  dryRun cfg = false ->
  post_result w k = Returned r ->
  upload_record utf8_encode cfg w course association k a acc s
  = (Returned (fst acc ++ [r], snd acc ++ List.filter has_errors [r]),
     extend (posted_events cfg association (a, r))
            [PostAssessment course association a] s).
Proof.
  intros Hdry Hr. unfold upload_record, posted_events, has_errors, extend.
  rewrite Hdry, Hr.
  destruct (verbose cfg); unfold bind; simpl; destruct (errors r); simpl;
    rewrite <- ?app_assoc, ?app_nil_r; reflexivity.
Qed.

Lemma upload_loop_real (cfg : Config number) w course association l :
  dryRun cfg = false ->
  forall k rs acc (s : State),
    length rs = length l ->
    (forall j r, rs !! j = Some r -> post_result w (k + j) = Returned r) ->
    upload_loop utf8_encode cfg w course association k l acc s
    = (Returned (fst acc ++ rs, snd acc ++ List.filter has_errors rs),
       extend (flat_map (posted_events cfg association) (combine l rs))
              (map (PostAssessment course association) l) s).
Proof.
  intros Hdry. induction l as [|a l IH]; intros k rs acc s Hlen Hrs.
  - destruct rs; [|discriminate]. simpl. rewrite extend_nil, !app_nil_r.
    destruct acc. reflexivity.
  - destruct rs as [|r rs]; [discriminate|]. cbn [upload_loop].
    rewrite (bind_run _ _ _ _ _
               (upload_record_real cfg w course association k a acc r s Hdry
                  (eq_trans (f_equal (post_result w) (eq_sym (Nat.add_0_r k)))
                            (Hrs 0 r eq_refl)))).
    rewrite (IH (S k) rs); [|simpl in Hlen; lia|].
    + rewrite extend_extend. cbn [fst snd combine flat_map map].
      rewrite <- !app_assoc. cbn [List.filter].
      destruct (has_errors r); reflexivity.
    + intros j r' Hj. rewrite Nat.add_succ_comm. apply (Hrs (S j) r' Hj).
Qed.

Lemma for_each_logs (rs : list UploadResult) : forall j (s : State),
  for_each (fun _ e => console_log (LogResult e)) j rs s
  = (Returned tt, log_console (map (fun r => ConsoleLog (LogResult r)) rs) s).
Proof.
  induction rs as [|r rs IH]; intros j s; cbn [for_each map].
  - rewrite log_console_nil. reflexivity.
  - rewrite (bind_run _ _ _ _ _ (console_log_run _ _)).
    rewrite IH, log_console_app. reflexivity.
Qed.

(** X16. A real upload whose posts are all answered posts every kept record
    once, in order, each on its own: it returns the answers in that order,
    an answer that carries errors is marked and counted but does not keep
    the later records from being posted, and the summary states how many
    answers carried errors out of how many records. *)
Theorem real_upload_posts_every_record (cfg : Config number) w ref (s : State)
    d results :
  dryRun cfg = false ->
  heap s !! ref = Some d ->
  length results
  = length (List.filter (keep_record cfg) (assessmentOutputDataList d)) ->
  (forall k r, results !! k = Some r -> post_result w k = Returned r) ->
  exists s',
    upload utf8_encode cfg w ref s = (Returned results, s')
    /\ network s'
       = network s
         ++ map (PostAssessment (data_course d) (rubricAssociationId d))
                (List.filter (keep_record cfg) (assessmentOutputDataList d))
    /\ console s' = console s ++ real_upload_console utf8_encode cfg d results.
Proof.
  intros Hdry Hd Hlen Hrs. unfold upload.
  erewrite bind_run by (unfold deref; rewrite Hd; reflexivity).
  erewrite bind_run by apply filter_records_run.
  erewrite bind_run by reflexivity.
  unfold real_upload_console. cbv zeta.
  destruct (verbose cfg) eqn:Hv; cbn [when];
    (erewrite bind_run by reflexivity);
    (erewrite bind_run by apply for_each_marks);
    (erewrite bind_run by reflexivity);
    (erewrite bind_run by reflexivity);
    (erewrite bind_run
       by (apply (upload_loop_real cfg w _ _ _ Hdry 0 results);
           [exact Hlen | exact Hrs]));
    rewrite Hdry; cbn [negb when fst snd app];
    (erewrite bind_run by reflexivity);
    (erewrite bind_run by reflexivity);
    (erewrite bind_run by reflexivity);
    (erewrite bind_run by apply for_each_logs);
    (erewrite bind_run by reflexivity);
    eexists; (split; [reflexivity|]); split;
    simpl; rewrite <- ?app_assoc, ?app_nil_r; simpl; reflexivity.
Qed.

Lemma upload_loop_app (cfg : Config number) w course association l1 l2 :
  forall k acc (s : State),
    upload_loop utf8_encode cfg w course association k (l1 ++ l2) acc s
    = bind (upload_loop utf8_encode cfg w course association k l1 acc)
           (fun acc' => upload_loop utf8_encode cfg w course association
                          (k + length l1) l2 acc') s.
Proof.
  induction l1 as [|a l1 IH]; intros k acc s.
  - simpl. rewrite Nat.add_0_r. reflexivity.
  - cbn [upload_loop app length]. rewrite bind_assoc. apply bind_ext.
    intros acc' s1. rewrite IH, Nat.add_succ_comm. reflexivity.
Qed.

Lemma upload_record_rejected (cfg : Config number) w course association k a acc
    e (s : State) :
  dryRun cfg = false ->
  post_result w k = Thrown e ->
  upload_record utf8_encode cfg w course association k a acc s
  = (Thrown e,
     extend (if verbose cfg then [ConsoleLog (LogPosting association a)] else [])
            [PostAssessment course association a] s).
Proof.
  intros Hdry Hr. unfold upload_record, extend. rewrite Hdry, Hr.
  destruct (verbose cfg); unfold bind; simpl; rewrite ?app_nil_r; reflexivity.
Qed.

Lemma answers_exist w j :
  (forall k, k < j -> exists r, post_result w k = Returned r) ->
  exists rs, length rs = j
             /\ forall k r, rs !! k = Some r -> post_result w k = Returned r.
Proof.
  induction j as [|j IH]; intros Hall.
  - exists []. split; [reflexivity|]. intros k r Hk. discriminate.
  - destruct IH as (rs & Hlen & Hrs); [intros k Hk; apply Hall; lia|].
    destruct (Hall j) as [r Hr]; [lia|].
    exists (rs ++ [r]). split; [rewrite length_app; simpl; lia|].
    intros k r' Hk. apply lookup_snoc_Some in Hk as [[_ Hk]|[-> <-]].
    + apply Hrs, Hk.
    + rewrite Hlen. exact Hr.
Qed.

(** X17. A post that is rejected (the request fails, or its answer is not
    JSON) is not caught: [upload] rejects with that fault, the records
    before it have been posted and that one requested, no later record is
    posted, and the list of the dataset object has already been replaced by
    the filtered one. *)
Theorem rejected_post_aborts_upload (cfg : Config number) w ref (s : State)
    d j a e :
  dryRun cfg = false ->
  heap s !! ref = Some d ->
  List.filter (keep_record cfg) (assessmentOutputDataList d) !! j = Some a ->
  (forall k, k < j -> exists r, post_result w k = Returned r) ->
  post_result w j = Thrown e ->
  exists s',
    upload utf8_encode cfg w ref s = (Thrown e, s')
    /\ network s'
       = network s
         ++ map (PostAssessment (data_course d) (rubricAssociationId d))
                (take (S j)
                   (List.filter (keep_record cfg) (assessmentOutputDataList d)))
    /\ heap s' !! ref
       = Some (with_list
                 (List.filter (keep_record cfg) (assessmentOutputDataList d)) d).
Proof.
  intros Hdry Hd Hj Hbefore Hrej.
  destruct (answers_exist w j Hbefore) as (rs & Hlen & Hrs).
  set (kept := List.filter (keep_record cfg) (assessmentOutputDataList d)) in *.
  assert (Hsplit := take_drop_middle kept j a Hj).
  assert (Hlt : j < length kept) by (eapply lookup_lt_Some; exact Hj).
  assert (Hloop : forall s0 : State,
             upload_loop utf8_encode cfg w (data_course d)
               (rubricAssociationId d) 0 kept ([], []) s0
             = (Thrown e,
                extend
                  (flat_map (posted_events cfg (rubricAssociationId d))
                            (combine (take j kept) rs)
                   ++ (if verbose cfg
                       then [ConsoleLog (LogPosting (rubricAssociationId d) a)]
                       else []))
                  (map (PostAssessment (data_course d) (rubricAssociationId d))
                       (take (S j) kept)) s0)).
  { intros s0. rewrite <- Hsplit at 1. rewrite upload_loop_app.
    rewrite (bind_run _ _ _ _ _
               (upload_loop_real cfg w _ _ (take j kept) Hdry 0 rs ([], []) s0
                  (eq_trans Hlen (eq_sym (length_take_le kept j (Nat.lt_le_incl _ _ Hlt))))
                  Hrs)).
    cbn [upload_loop]. rewrite length_take_le by lia. simpl Nat.add.
    rewrite (bind_throws _ _ _ _ _
               (upload_record_rejected cfg w _ _ j a _ e _ Hdry Hrej)).
    rewrite extend_extend. f_equal. f_equal.
    rewrite (take_S_r kept j a Hj), map_app. reflexivity. }
  assert (Hup : exists s', upload utf8_encode cfg w ref s = (Thrown e, s')
                           /\ network s'
                              = network s
                                ++ map (PostAssessment (data_course d)
                                          (rubricAssociationId d))
                                       (take (S j) kept)).
  { unfold upload.
    erewrite bind_run by (unfold deref; rewrite Hd; reflexivity).
    erewrite bind_run by apply filter_records_run.
    erewrite bind_run by reflexivity.
    destruct (verbose cfg) eqn:Hv; cbn [when];
      (erewrite bind_run by reflexivity);
      (erewrite bind_run by apply for_each_marks);
      (erewrite bind_run by reflexivity);
      (erewrite bind_run by reflexivity);
      (erewrite bind_throws by (fold kept; apply Hloop));
      eexists; (split; [reflexivity|]); reflexivity. }
  destruct Hup as (s' & E & Hnet). exists s'.
  split; [exact E|]. split; [exact Hnet|].
  rewrite (upload_heap _ _ _ _ _ _ _ Hd E), lookup_alter_eq, Hd. reflexivity.
Qed.

Lemma filter_all {A} (f : A -> bool) l :
  Forall (fun x => f x = true) l -> List.filter f l = l.
Proof.
  induction 1 as [|x l Hx _ IH]; simpl; [reflexivity|].
  rewrite Hx, IH. reflexivity.
Qed.

(** X18. Filtering again changes nothing: the records of a completed
    evaluation all pass the filter of [upload] under the same configuration,
    and so do the records left in the dataset object by an earlier
    [upload]; a second filtering drops none. *)
Theorem refiltering_drops_nothing (cfg : Config number) :
  (forall w input (s : State) d s',
      evaluate utf8_encode utf8_decode cfg w input s = (Returned d, s') ->
      List.filter (keep_record cfg) (assessmentOutputDataList d)
      = assessmentOutputDataList d)
  /\ (forall w ref (s : State) d o s',
         heap s !! ref = Some d ->
         upload utf8_encode cfg w ref s = (o, s') ->
         exists d', heap s' !! ref = Some d'
                    /\ List.filter (keep_record cfg) (assessmentOutputDataList d')
                       = assessmentOutputDataList d').
Proof.
  split.
  - intros w input s d s' E. apply filter_all.
    unfold evaluate in E. cbv zeta in E.
    apply bind_Returned in E as (l & s1 & El & E).
    apply bind_Returned in E as (? & ? & _ & E). injection E as <- _. simpl.
    apply submission_loop_users in El. simpl in El.
    apply Forall_forall. intros aod Hin. apply list_elem_of_In in Hin.
    assert (Hu : In (user_id aod) (map user_id l)) by (apply in_map, Hin).
    rewrite El in Hu. apply in_map_iff in Hu as (sub & Hsub & Hf).
    apply filter_In in Hf as [_ Hk]. unfold keep_record. rewrite <- Hsub.
    exact Hk.
  - intros w ref s d o s' Hd E.
    rewrite (upload_heap _ _ _ _ _ _ _ Hd E), lookup_alter_eq, Hd. simpl.
    eexists. split; [reflexivity|]. simpl. apply filter_all.
    apply Forall_forall. intros a Hin. apply list_elem_of_In in Hin.
    apply filter_In in Hin as [_ Hk]. exact Hk.
Qed.

End Properties.

(** * The properties at work on the sample data *)

Module Witness.
Import Sample.

Definition u1 : UserData := user (sub "1").

(** The first criterion of the first submission, as [evaluate] runs it. *)
Definition criterion_run (run : ChildRun) (c : CriteriaData SafeInt)
  : Outcome (CriteriaOutputData SafeInt) * St SafeInt :=
  evaluate_criterion encode decode cfg the_assignment u1 1%positive 0 2 0 c
    run s0.

(** The first submission's turn of the loop when its download answers 404. *)
Definition failed_turn
  : Outcome (list (AssessmentOutputData SafeInt)) * St SafeInt :=
  evaluate_submission encode decode cfg world_404 the_assignment (Int 5) 0
    (sub "1") [] s0.

(** A dry run over two records, the second one denied. *)
Definition dry_upload : Outcome (list UploadResult) * St SafeInt :=
  upload encode except_u3 world 1%positive (with_dataset [record42; record3]).

(** C1 on a child that exits with status 0: the result carries the 3 points
    of the criterion. *)
Lemma criterion_points_witness :
  exists r s', criterion_run (run_ok 0) c1 = (Returned r, s')
               /\ points r = Int 3.
Proof.
  destruct (criterion_points_follow_exit_status encode decode cfg
              the_assignment u1 1%positive 0 2 0 c1 (run_ok 0) s0)
    as [Hinv Htot].
  destruct (Htot {| code := 0; signal := None |} eq_refl eq_refl eq_refl)
    as (r & s' & E).
  exists r, s'. split; [exact E|].
  destruct (Hinv r s' E) as (st & Hst & H0 & _).
  injection Hst as <-. apply H0. reflexivity.
Defined.



(** C7 on two indented lines. *)
Lemma comments_witness :
  comments (criterion_result decode c1 run_lines {| code := 0; signal := None |})
  = Some ([PUNCTUATION_SPACE; PUNCTUATION_SPACE] ++ js "a b" ++ [LF]
          ++ [PUNCTUATION_SPACE] ++ js "c").
Proof.
  apply (comments_leading_spaces_substituted encode decode cfg the_assignment
           u1 1%positive 0 2 0 c1 run_lines s0
           (criterion_result decode c1 run_lines {| code := 0; signal := None |})
           (snd (criterion_run run_lines c1))
           [({| indent := 2; line_body := js "a b" |}, LF)]
           {| indent := 1; line_body := js "c" |}).
  - vm_compute. reflexivity.
  - split; [repeat constructor | split]; simpl;
      try discriminate; repeat constructor.
  - vm_compute. reflexivity.
Defined.

(** C8 on a child that exits with status 1 before reading its input. *)
Lemma stdin_failure_witness :
  exists r s',
    criterion_run (run_broken_pipe 1) c1 = (Returned r, s')
    /\ points r = Int 0
    /\ In (ConsoleLog (LogText (js "Failed writing process input"))) (console s')
    /\ In (ConsoleLog (LogError (Rejected (js "BrokenPipe")))) (console s')
    /\ fst (criterion_run (with_stdin_delivered (run_broken_pipe 1)) c1)
       = Returned r.
Proof.
  exact (stdin_failure_is_tolerated encode decode cfg the_assignment u1
           1%positive 0 2 0 c1 (run_broken_pipe 1)
           {| code := 1; signal := None |} (Rejected (js "BrokenPipe")) s0
           eq_refl eq_refl eq_refl eq_refl).
Defined.

(** C2 as stated fails: the first of two submissions has an attachment that
    answers 404; [evaluate] rejects with that fault and returns no dataset,
    and the second submission is never attempted: neither its banner nor a
    request for it appears. *)
Lemma run_stops_at_failed_download :
  fst (evaluate encode decode cfg world_404 input s0)
  = Thrown (UnexpectedStatus 404 (js "Not Found"))
  /\ console (snd (evaluate encode decode cfg world_404 input s0))
     = [ConsoleLog (LogEvaluating 1 2 (js "s1") (js "user 1"))]
  /\ network (snd (evaluate encode decode cfg world_404 input s0))
     = [GetSubmission (Int 5) (js "7") (js "1");
        GetAttachment (js "https://files.example/1")]
  /\ ~ In (ConsoleLog (LogEvaluating 2 2 (js "s2") (js "user 2")))
          (console (snd (evaluate encode decode cfg world_404 input s0))).
Proof.
  repeat split; try (vm_compute; reflexivity).
  vm_compute. intros [Hk|[]]. discriminate Hk.
Defined.

(** C2 (amended) on that submission. *)
Lemma download_failure_witness :
  exists e s',
    failed_turn = (Thrown e, s')
    /\ fs s' = fs s0
    /\ submission_loop encode decode cfg world_404 the_assignment (Int 5) 0
         [sub "1"; sub "2"] [] s0 = (Thrown e, s').
Proof.
  apply (download_failure_aborts_the_run encode decode cfg world_404
           the_assignment (Int 5) 0 (sub "1") [sub "2"] [] s0
           [attachment] 0 attachment not_found);
    try reflexivity.
  left. vm_compute. discriminate.
Defined.

(** C4 on the same faulty turn: the directory [1] was created and is gone. *)
Lemma working_directory_witness :
  fs (snd (makeTempDir world_404 0 s0)) !! 1%positive = Some []
  /\ fs (snd failed_turn) !! 1%positive = None
  /\ fs (snd failed_turn) = fs s0.
Proof.
  apply (working_directory_removed encode decode cfg world_404 the_assignment
           (Int 5) 0 (sub "1") [] s0 (fst failed_turn) (snd failed_turn)
           1%positive (snd (makeTempDir world_404 0 s0))).
  - apply surjective_pairing.
  - vm_compute. reflexivity.
Defined.

(** C5 with the allow-list [{2}]: user 1 is skipped and leaves no record;
    with the deny-list [{3}], [upload] drops the record of user 3. *)
Lemma filter_witness :
  excluded only_u2 (js "1") = true
  /\ (exists s',
         evaluate_submission encode decode only_u2 world the_assignment (Int 5)
           0 (sub "1") [] s0 = (Returned [], s')
         /\ fs s' = fs s0 /\ network s' = network s0
         /\ processes s' = processes s0)
  /\ (exists d',
         heap (snd dry_upload) !! 1%positive = Some d'
         /\ assessmentOutputDataList d' = [record42]).
Proof.
  destruct (filter_skips_exactly_the_excluded encode decode only_u2)
    as (Hspec & _ & Hskip & _ & _).
  destruct (filter_skips_exactly_the_excluded encode decode except_u3)
    as (_ & _ & _ & _ & Hup).
  split; [|split].
  - apply Hspec. left. exists [Int 2]. split; [reflexivity|].
    vm_compute. intros [Hk|[]]. discriminate Hk.
  - apply Hskip. reflexivity.
  - apply (Hup world 1%positive (with_dataset [record42; record3])
             (dataset [record42; record3]) (fst dry_upload) (snd dry_upload)).
    + vm_compute. reflexivity.
    + apply surjective_pairing.
Defined.

(** C9 as stated fails: on one record the console of a dry run and the
    console of a real upload differ, in their events and in the sequence of
    stream writes and logged lines. *)
Lemma dry_run_console_differs :
  console (snd (upload encode dry world 1%positive (with_dataset [record42])))
  = [StdoutWrite (encode (js "_")); StdoutWrite (encode (js "."));
     ConsoleLog (LogText []);
     ConsoleLog (LogText (js "Would upload assessment of 3 points for 42"));
     ConsoleLog (LogText []);
     ConsoleLog (LogText (js "Upload finished (0 failed of 1)."))]
  /\ console (snd (upload encode cfg world 1%positive (with_dataset [record42])))
     = [StdoutWrite (encode (js "_")); StdoutWrite (encode (js "."));
        ConsoleLog (LogText []);
        StdoutWrite (encode (js "#")); StdoutWrite (encode (js "|"));
        ConsoleLog (LogText []);
        ConsoleLog (LogText (js "Upload finished (0 failed of 1)."))]
  /\ map is_stdout_write
         (console (snd (upload encode dry world 1%positive
                          (with_dataset [record42]))))
     <> map is_stdout_write
            (console (snd (upload encode cfg world 1%positive
                             (with_dataset [record42])))).
Proof.
  repeat split; try (vm_compute; reflexivity).
  vm_compute. discriminate.
Defined.

(** C9 (amended) on the record of user 42: the total 3 is shown and the
    network is not used. *)
Lemma dry_run_witness :
  exists s',
    upload encode dry world 1%positive (with_dataset [record42])
    = (Returned [{| errors := None |}], s')
    /\ network s' = []
    /\ console s'
       = [StdoutWrite (encode (js "_")); StdoutWrite (encode (js "."));
          ConsoleLog (LogText []);
          ConsoleLog (LogText (js "Would upload assessment of 3 points for 42"));
          ConsoleLog (LogText []);
          ConsoleLog (LogText (js "Upload finished (0 failed of 1)."))].
Proof.
  destruct (dry_run_upload encode dry world 1%positive
              (with_dataset [record42]) (dataset [record42]) eq_refl eq_refl)
    as (s' & E & Hn & Hc).
  exists s'. split; [exact E|]. split; [exact Hn|].
  rewrite Hc. vm_compute. reflexivity.
Defined.

(** C10 with the deny-list [{3}]: the caller's object has lost the record of
    user 3. *)
Lemma upload_mutation_witness :
  heap (snd dry_upload) !! 1%positive = Some (dataset [record42])
  /\ (forall a, In a [record42; record3] ->
                excluded except_u3 (user_id a) = true ->
                forall d', heap (snd dry_upload) !! 1%positive = Some d' ->
                           ~ In a (assessmentOutputDataList d'))
  /\ (forall other, other <> 1%positive ->
                    heap (snd dry_upload) !! other
                    = heap (with_dataset [record42; record3]) !! other).
Proof.
  destruct (upload_reassigns_the_list encode except_u3 world 1%positive
              (with_dataset [record42; record3]) (dataset [record42; record3])
              (fst dry_upload) (snd dry_upload)) as (Hlist & Hgone & Hother).
  - vm_compute. reflexivity.
  - apply surjective_pairing.
  - split; [|split; [exact Hgone | exact Hother]].
    rewrite Hlist. vm_compute. reflexivity.
Defined.

End Witness.
